(** * cursor-error-compacter: the extraction pass of [formatter.py]

    A shallow embedding of [is_valid_json] and [process_file] and of the
    fragment of Python's [str] and [re] modules they call, followed by the
    properties of the extraction pass.

    Modelling choices.
    - A Python [str] is a sequence of Unicode code points: [text] is
      [list N].  String literals of the source are written as Rocq strings
      and injected with [str].
    - A Python [int] is a [Z].
    - The [counts] dictionary is a [gmap string Z]; subscripting a missing
      key raises [KeyError].
    - Exceptions are explicit: a computation of type [py A] either returns
      or raises.
    - [json.loads] is library code: it is a parameter that says whether
      parsing succeeds or raises [JSONDecodeError].
    - The limits of the interpreter are a layer of their own.  The
      definitions at the top level run the source with an [int] that
      converts a run of digits of any length and a [json.loads] that fails
      with [JSONDecodeError] only.  Module [Limits] runs the same source
      with the limit of [int] on the number of digits (4300 by default) and
      with a [json.loads] that may raise any exception; the two agree on
      every input that reaches neither limit.
    - [process_file] receives the decoded content of the file; opening and
      decoding the file is the caller side of the model. *)

From Stdlib Require Import ZArith NArith List Bool Lia Ascii String.
From Stdlib Require Import DecimalString.
From stdpp Require Import base option list gmap strings.

Local Open Scope N_scope.

(** ** Text *)

Definition text : Type := list N.

(** Injection of a source literal. *)
Definition str (s : string) : text :=
  map N_of_ascii (list_ascii_of_string s).

(** Code points used by the source. *)
Definition LF : N := 10.
Definition QUOTE : N := 34.       (* the double quote *)
Definition COMMA : N := 44.
Definition SLASH : N := 47.
Definition BACKSLASH : N := 92.
Definition BACKTICK : N := 96.
Definition RBRACE : N := 125.

(** [str.isspace], which is also the class [\s] of a [str] pattern. *)
Definition isspace (c : N) : bool :=
  ((9 <=? c) && (c <=? 13)) || ((28 <=? c) && (c <=? 32))
  || (c =? 133) || (c =? 160) || (c =? 5760)
  || ((8192 <=? c) && (c <=? 8202))
  || (c =? 8232) || (c =? 8233) || (c =? 8239) || (c =? 8287)
  || (c =? 12288).

(** First code points of the blocks of ten decimal digits (general
    category Nd, Unicode 14); the digit of value [i] of a block is at
    offset [i]. *)
Definition decimal_blocks : list N :=
  [ 0x30; 0x660; 0x6f0; 0x7c0; 0x966; 0x9e6; 0xa66; 0xae6; 0xb66; 0xbe6;
    0xc66; 0xce6; 0xd66; 0xde6; 0xe50; 0xed0; 0xf20; 0x1040; 0x1090;
    0x17e0; 0x1810; 0x1946; 0x19d0; 0x1a80; 0x1a90; 0x1b50; 0x1bb0;
    0x1c40; 0x1c50; 0xa620; 0xa8d0; 0xa900; 0xa9d0; 0xa9f0; 0xaa50;
    0xabf0; 0xff10; 0x104a0; 0x10d30; 0x11066; 0x110f0; 0x11136; 0x111d0;
    0x112f0; 0x11450; 0x114d0; 0x11650; 0x116c0; 0x11730; 0x118e0;
    0x11950; 0x11c50; 0x11d50; 0x11da0; 0x16a60; 0x16ac0; 0x16b50;
    0x1d7ce; 0x1d7d8; 0x1d7e2; 0x1d7ec; 0x1d7f6; 0x1e140; 0x1e2f0;
    0x1e950; 0x1fbf0 ].

(** The decimal value of a code point, when it is a decimal digit. *)
Fixpoint decimal_in (blocks : list N) (c : N) : option Z :=
  match blocks with
  | [] => None
  | b :: rest =>
      if (b <=? c) && (c <? b + 10) then Some (Z.of_N (c - b))
      else decimal_in rest c
  end.

Definition decimal (c : N) : option Z := decimal_in decimal_blocks c.

(** [str.isdecimal] on one code point, which is also the class [\d]. *)
Definition isdecimal (c : N) : bool :=
  match decimal c with Some _ => true | None => false end.

(** ** Exceptions *)

Inductive exn : Type :=
| AttributeError   (* a method called on [None] *)
| TypeError        (* [int(None)] *)
| ValueError       (* [int] of a string that is not a number *)
| IndexError       (* a list subscript out of range *)
| KeyError         (* a missing dictionary key *)
| JSONDecodeError  (* [json.loads] on a text that is not JSON *)
| RecursionError.  (* [json.loads] on brackets nested too deeply *)

Inductive py (A : Type) : Type :=
| Return (a : A)
| Raise (e : exn).
Arguments Return {A} a.
Arguments Raise {A} e.

#[global] Instance py_ret : MRet py := fun A a => Return a.

#[global] Instance py_bind : MBind py := fun A B f m =>
  match m with
  | Return a => f a
  | Raise e => Raise e
  end.

(** ** The [str] methods of the source *)

(** [s.startswith(p)], returning what follows the prefix. *)
Fixpoint strip_prefix (p s : text) : option text :=
  match p, s with
  | [], _ => Some s
  | a :: p', b :: s' => if a =? b then strip_prefix p' s' else None
  | _ :: _, [] => None
  end.

(** [s.replace(old, new)]: the occurrences of [old] are replaced from left
    to right and do not overlap.  [skip] counts the characters of an
    occurrence that remain to be dropped. *)
Fixpoint replace_from (old new : text) (skip : nat) (s : text) : text :=
  match s with
  | [] => []
  | c :: s' =>
      match skip with
      | S n => replace_from old new n s'
      | O =>
          match strip_prefix old s with
          | Some _ => new ++ replace_from old new (length old - 1) s'
          | None => c :: replace_from old new 0 s'
          end
      end
  end.

Definition replace (old new s : text) : text :=
  match old with
  | [] => new ++ flat_map (fun c => c :: new) s
  | _ :: _ => replace_from old new 0 s
  end.

(** [s.split(sep)] for a separator of one character: never empty. *)
Fixpoint split (sep : N) (s : text) : list text :=
  match s with
  | [] => [[]]
  | c :: s' =>
      if c =? sep then [] :: split sep s'
      else match split sep s' with
           | h :: t => (c :: h) :: t
           | [] => [[c]]
           end
  end.

(** [sep.join(parts)]. *)
Fixpoint join (sep : text) (parts : list text) : text :=
  match parts with
  | [] => []
  | [p] => p
  | p :: rest => p ++ sep ++ join sep rest
  end.

(** [s.strip()]. *)
Fixpoint lstrip (s : text) : text :=
  match s with
  | c :: s' => if isspace c then lstrip s' else s
  | [] => []
  end.

Definition strip (s : text) : text := rev (lstrip (rev (lstrip s))).

(** [parts[-n:]] for [n > 0]: the last [n] elements, all of them when the
    list is shorter. *)
Definition slice_last {A : Type} (n : nat) (l : list A) : list A :=
  drop (length l - n) l.

(** [parts[-1]]. *)
Definition subscript_last {A : Type} (l : list A) : py A :=
  match last l with
  | Some x => Return x
  | None => Raise IndexError
  end.

(** [int(s)] on the strings the source passes, which are runs of decimal
    digits; any other string is reported as [ValueError]. *)
Fixpoint int_digits (acc : Z) (s : text) : option Z :=
  match s with
  | [] => Some acc
  | c :: s' =>
      match decimal c with
      | Some d => int_digits (10 * acc + d)%Z s'
      | None => None
      end
  end.

Definition int (s : option text) : py Z :=
  match s with
  | None => Raise TypeError
  | Some [] => Raise ValueError
  | Some (c :: s') =>
      match int_digits 0 (c :: s') with
      | Some z => Return z
      | None => Raise ValueError
      end
  end.

(** ** The fragment of [re] the source uses

    Every quantifier of the six patterns of [process_file] applies to one
    character class ([\s*], [.+?], [\d+], ...) or makes a group or a
    character optional, and each pattern has at most one capturing group.
    Matching is by backtracking with the priorities of [re]: a greedy
    quantifier tries the longest run first, a lazy one the shortest, and an
    optional item is tried before it is skipped. *)

Inductive regex : Type :=
| Lit (t : text)                                   (* literal characters *)
| Rep (greedy : bool) (lo : nat) (cls : N -> bool) (* [cls*], [cls+], [cls+?] *)
| Opt (r : regex)                                  (* [(?:r)?] *)
| Cat (r1 r2 : regex)                              (* [r1 r2] *)
| Grp (r : regex).                                 (* [(r)], group 1 *)

Section Matcher.
Context {A : Type}.

(** The [lo] characters a quantifier must consume. *)
Fixpoint rep_least (cls : N -> bool) (lo : nat) (s : text)
    (k : text -> option A) : option A :=
  match lo with
  | O => k s
  | S n =>
      match s with
      | c :: s' => if cls c then rep_least cls n s' k else None
      | [] => None
      end
  end.

(** Greedy: consume while the class matches, give back one character at
    a time when the continuation fails. *)
Fixpoint rep_greedy (cls : N -> bool) (s : text)
    (k : text -> option A) : option A :=
  match s with
  | c :: s' =>
      if cls c then
        match rep_greedy cls s' k with
        | Some x => Some x
        | None => k s
        end
      else k s
  | [] => k []
  end.

(** Lazy: try the continuation first, consume one more character when it
    fails. *)
Fixpoint rep_lazy (cls : N -> bool) (s : text)
    (k : text -> option A) : option A :=
  match k s with
  | Some x => Some x
  | None =>
      match s with
      | c :: s' => if cls c then rep_lazy cls s' k else None
      | [] => None
      end
  end.

(** [mtch r s g k]: match [r] at the head of [s]; [g] is the current
    content of group 1 ([None] while it has not taken part); [k] receives
    the rest of the input and the group. *)
Fixpoint mtch (r : regex) (s : text) (g : option text)
    (k : text -> option text -> option A) : option A :=
  match r with
  | Lit t =>
      match strip_prefix t s with
      | Some s' => k s' g
      | None => None
      end
  | Rep greedy lo cls =>
      rep_least cls lo s (fun s1 =>
        (if greedy then rep_greedy else rep_lazy) cls s1 (fun s2 => k s2 g))
  | Opt r1 =>
      match mtch r1 s g k with
      | Some x => Some x
      | None => k s g
      end
  | Cat r1 r2 => mtch r1 s g (fun s' g' => mtch r2 s' g' k)
  | Grp r1 =>
      mtch r1 s g (fun s' _ => k s' (Some (take (length s - length s') s)))
  end.
End Matcher.

(** A match object: [group0] is [m.group(0)], [group1] is [m.group(1)],
    which is [None] when the group took no part in the match. *)
Record match_obj : Type := MatchObj {
  group0 : text;
  group1 : option text
}.

(** A match that starts at the head of [s]. *)
Definition match_at (r : regex) (s : text) : option match_obj :=
  mtch r s None (fun s' g =>
    Some (MatchObj (take (length s - length s') s) g)).

(** [re.search(r, s)]: the match at the leftmost position that has one. *)
Fixpoint search (r : regex) (s : text) : option match_obj :=
  match match_at r s with
  | Some m => Some m
  | None =>
      match s with
      | [] => None
      | _ :: s' => search r s'
      end
  end.

(** [re.finditer(r, s)], as the list of the [group(0)] of its matches: the
    leftmost match, then the leftmost match in what follows it, and so on.
    [skip] counts the characters of the last match that remain to be
    passed over.  (A pattern that matches the empty string is outside this
    model; the pattern of the source starts with a brace.) *)
Fixpoint finditer_from (r : regex) (skip : nat) (s : text) : list text :=
  match skip with
  | S n =>
      match s with
      | [] => []
      | _ :: s' => finditer_from r n s'
      end
  | O =>
      match match_at r s with
      | Some m =>
          group0 m ::
          match s with
          | [] => []
          | _ :: s' => finditer_from r (length (group0 m) - 1) s'
          end
      | None =>
          match s with
          | [] => []
          | _ :: s' => finditer_from r 0 s'
          end
      end
  end.

Definition finditer (r : regex) (s : text) : list text :=
  finditer_from r 0 s.

Infix "&>" := Cat (at level 60, right associativity).

(** Character classes of the patterns. *)
Definition any_char (c : N) : bool := true.          (* [.] under [re.DOTALL] *)
Definition none_of (l : list N) (c : N) : bool :=    (* a negated class *)
  negb (existsb (N.eqb c) l).

(** A key of the blob between its double quotes. *)
Definition quoted (s : string) : text := QUOTE :: str s ++ [QUOTE].

(** ** The patterns of [process_file] *)

(** The block pattern: an opening brace, blanks, the key resource with its
    colon, one or more characters (lazily), optionally a comma, the key
    modelVersionId, a colon and characters other than comma and closing
    brace, and a closing brace. *)
Definition pattern : regex :=
  Lit (str "{") &> Rep true 0 isspace &> Lit (quoted "resource" ++ str ":")
  &> Rep false 1 any_char
  &> Opt (Lit (str "," ++ quoted "modelVersionId" ++ str ":")
          &> Rep true 1 (none_of [COMMA; RBRACE]))
  &> Lit (str "}").

(** key, blanks, colon, blanks, a quote, one or more characters other than
    a quote (captured), a quote. *)
Definition resource_pattern : regex :=
  Lit (quoted "resource") &> Rep true 0 isspace &> Lit (str ":")
  &> Rep true 0 isspace &> Lit [QUOTE]
  &> Grp (Rep true 1 (none_of [QUOTE])) &> Lit [QUOTE].

(** key, blanks, colon, blanks, one or more decimal digits (captured). *)
Definition severity_pattern : regex :=
  Lit (quoted "severity") &> Rep true 0 isspace &> Lit (str ":")
  &> Rep true 0 isspace &> Grp (Rep true 1 isdecimal).

(** As [resource_pattern], but the captured run may be empty. *)
Definition message_pattern : regex :=
  Lit (quoted "message") &> Rep true 0 isspace &> Lit (str ":")
  &> Rep true 0 isspace &> Lit [QUOTE]
  &> Grp (Rep true 0 (none_of [QUOTE])) &> Lit [QUOTE].

(** key, blanks, colon, blanks, an optional quote, one or more characters
    other than quote, comma and closing brace (captured), an optional
    quote. *)
Definition code_pattern : regex :=
  Lit (quoted "code") &> Rep true 0 isspace &> Lit (str ":")
  &> Rep true 0 isspace &> Opt (Lit [QUOTE])
  &> Grp (Rep true 1 (none_of [QUOTE; COMMA; RBRACE])) &> Opt (Lit [QUOTE]).

(** As [severity_pattern], for the key startLineNumber. *)
Definition line_pattern : regex :=
  Lit (quoted "startLineNumber") &> Rep true 0 isspace &> Lit (str ":")
  &> Rep true 0 isspace &> Grp (Rep true 1 isdecimal).

(** ** Python values in the loop *)

(** [m.group(1).method(...)]: a method call on [None] raises. *)
Definition receiver (g : option text) : py text :=
  match g with
  | Some t => Return t
  | None => Raise AttributeError
  end.

(** A group inside an f-string: [None] is written out as its name. *)
Definition fmt (g : option text) : text :=
  match g with
  | Some t => t
  | None => str "None"
  end.

(** [counts[key] += 1]. *)
Definition incr (key : string) (counts : gmap string Z) : py (gmap string Z) :=
  match counts !! key with
  | Some n => Return (<[key := (n + 1)%Z]> counts)
  | None => Raise KeyError
  end.

(** The dictionary [counts] starts from. *)
Definition counts0 : gmap string Z :=
  <["ERROR" := 0%Z]> (<["WARNING" := 0%Z]> (<["INFO" := 0%Z]>
    (<["TOTAL" := 0%Z]> ∅))).

(** The conditional expression that names the category of a severity. *)
Definition msg_type_of (severity : Z) : string :=
  if (severity >=? 8)%Z then "ERROR"
  else if (severity >=? 4)%Z then "WARNING"
  else "INFO".

(** A [for] loop over a list, threading the accumulators; an exception
    leaves the loop. *)
Fixpoint for_each {B S : Type} (body : B -> S -> py S) (items : list B)
    (st : S) : py S :=
  match items with
  | [] => Return st
  | b :: rest => st' ← body b st; for_each body rest st'
  end.

(** ** [is_valid_json] and [process_file] *)

(** The expressions of the loop body, named after the variables they are
    assigned to. *)

(** [file_path] (lines 81-85): the components of the resource, and either
    the last [max_path_depth] of them or the last one. *)
Definition path_parts (resource : text) : list text :=
  split SLASH (replace [BACKSLASH] [SLASH] resource).

Definition file_path_of (max_path_depth : Z) (resource : text) : py text :=
  if (max_path_depth >? 0)%Z
     && (Z.of_nat (length (path_parts resource)) >? max_path_depth)%Z
  then Return (join [SLASH]
                 (slice_last (Z.to_nat max_path_depth) (path_parts resource)))
  else subscript_last (path_parts resource).

(** [severity] (line 88). *)
Definition severity_of (severity_match : option match_obj) : py Z :=
  match severity_match with
  | Some sm => int (group1 sm)
  | None => Return 0%Z
  end.

(** [line] (line 99) and [code] (line 102). *)
Definition line_of (line_match : option match_obj) : text :=
  match line_match with
  | Some lm => fmt (group1 lm)
  | None => str "?"
  end.

Definition code_of (code_match : option match_obj) : text :=
  match code_match with
  | Some cm => fmt (group1 cm)
  | None => []
  end.

(** [message] (lines 105-106): the two replacements, one after the
    other. *)
Definition cleanup (message : text) : text :=
  replace (BACKSLASH :: str "n") (str " ")
    (replace [BACKSLASH; BACKTICK] [BACKTICK] message).

(** [compact] (line 109), the f-string. *)
Definition compact (msg_type : string) (file_path line code message : text)
    : text :=
  str msg_type ++ str " [" ++ file_path ++ str ":" ++ line ++ str "] "
  ++ code ++ str ": " ++ message.

(** One iteration of the loop of [process_file] on the matched [block];
    the accumulators are [results] and [counts]. *)
Definition loop_body (max_path_depth min_severity : Z) (block : text)
    (acc : list text * gmap string Z) : py (list text * gmap string Z) :=
  let '(results, counts) := acc in
  let resource_match := search resource_pattern block in
  let severity_match := search severity_pattern block in
  let message_match := search message_pattern block in
  let code_match := search code_pattern block in
  let line_match := search line_pattern block in
  match resource_match, message_match with
  | Some rm, Some mm =>
      resource ← receiver (group1 rm);
      file_path ← file_path_of max_path_depth resource;
      severity ← severity_of severity_match;
      if (severity <? min_severity)%Z then Return (results, counts)
      else
        let msg_type := msg_type_of severity in
        counts ← incr msg_type counts;
        counts ← incr "TOTAL" counts;
        let line := line_of line_match in
        let code := code_of code_match in
        message ← receiver (group1 mm);
        let message := cleanup message in
        Return (results ++ [compact msg_type file_path line code message],
                counts)
  | _, _ => Return (results, counts)
  end.

Section Source.
(** [json.loads]: [true] when it returns a value, [false] when it raises
    [JSONDecodeError]. *)
Variable json_loads : text -> bool.

Definition is_valid_json (content : text) : bool :=
  if json_loads content then true
  else if json_loads (str "[" ++ content ++ str "]") then true
  else
    forallb
      (fun line =>
         match strip line with
         | [] => true
         | _ :: _ => json_loads line
         end)
      (split LF (strip content)).

(** [process_file] from the point where [content] has been read: what it
    prints, and what it returns or raises. *)
Definition process_file (file_path content : text)
    (max_path_depth min_severity : Z)
    : list text * py (list text * gmap string Z) :=
  let printed :=
    if is_valid_json content then []
    else [ str "Warning: File " ++ file_path
             ++ str " doesn't appear to contain valid JSON";
           str "Processing anyway, but results may be incomplete." ] in
  let matches := finditer pattern content in
  (printed,
   for_each (loop_body max_path_depth min_severity) matches ([], counts0)).
End Source.

(** Sample inputs are written with an apostrophe for each double quote. *)
Definition blob (s : string) : text :=
  map (fun c => if c =? 39 then QUOTE else c) (str s).

(** A diagnostic of the editor with all its fields, in an array. *)
Definition sample_block : text :=
  blob "{'resource':'/a/b/c.ts','owner':'typescript','code':'TS2304','severity':9,'message':'oops','source':'ts','startLineNumber':42,'startColumn':5,'endLineNumber':42,'endColumn':9,'modelVersionId':3}".

Definition sample : text := str "[" ++ sample_block ++ str "]".

(** Records of severity 3 and 5. *)
Definition severity3_block : text :=
  blob "{'resource':'/a/b/c.ts','severity':3,'message':'minor','startLineNumber':7}".

Definition severity5_block : text :=
  blob "{'resource':'/a/b/c.ts','severity':5,'message':'medium','startLineNumber':8}".


(** A record without a message. *)
Definition no_message_block : text :=
  blob "{'resource':'/a/b/c.ts','severity':9,'code':'TS2304','startLineNumber':42}".

(** A record whose message holds the two escape sequences. *)
Definition escaped_block : text :=
  blob "{'resource':'/a/b/c.ts','severity':9,'message':'no \`x\` here\nsee above','startLineNumber':1}".

(** A record whose message holds a line feed itself. *)
Definition two_line_message : text := str "first" ++ [LF] ++ str "second".

Definition two_line_block : text :=
  blob "{'resource':'/a/b/c.ts','severity':9,'message':'"
  ++ two_line_message ++ blob "','startLineNumber':1}".




(** ** What a pattern matches

    [lang r g t g']: the pattern [r] matches exactly the text [t], and
    group 1 goes from [g] to [g'].  This is the set of matches without the
    priorities; the matcher returns one of them. *)
Inductive lang : regex -> option text -> text -> option text -> Prop :=
| lang_lit t g :
    lang (Lit t) g t g
| lang_rep greedy lo cls t g :
    Forall (fun c => cls c = true) t -> (lo <= length t)%nat ->
    lang (Rep greedy lo cls) g t g
| lang_opt_some r g t g' :
    lang r g t g' -> lang (Opt r) g t g'
| lang_opt_none r g :
    lang (Opt r) g [] g
| lang_cat r1 r2 g t1 g1 t2 g2 :
    lang r1 g t1 g1 -> lang r2 g1 t2 g2 -> lang (r1 &> r2) g (t1 ++ t2) g2
| lang_grp r g t g' :
    lang r g t g' -> lang (Grp r) g t (Some t).

(** The blocks [bs] occur in [s] from left to right without overlap. *)
Inductive occur_in_order : list text -> text -> Prop :=
| occur_nil s :
    occur_in_order [] s
| occur_cons pre b bs rest :
    occur_in_order bs rest -> occur_in_order (b :: bs) (pre ++ b ++ rest).

(** The four keys of [counts] are present. *)
Definition has_keys (counts : gmap string Z) : Prop :=
  is_Some (counts !! "ERROR") /\ is_Some (counts !! "WARNING")
  /\ is_Some (counts !! "INFO") /\ is_Some (counts !! "TOTAL").

(** [TOTAL == ERROR + WARNING + INFO]. *)
Definition total_is_sum (counts : gmap string Z) : Prop :=
  exists e w i t : Z,
    counts !! "ERROR" = Some e /\ counts !! "WARNING" = Some w
    /\ counts !! "INFO" = Some i /\ counts !! "TOTAL" = Some t
    /\ (t = e + w + i)%Z.

(** What one iteration on [block] appends to [results]. *)
Definition emitted (max_path_depth min_severity : Z) (block : text)
    : list text :=
  match loop_body max_path_depth min_severity block ([], counts0) with
  | Return (results, _) => results
  | Raise _ => []
  end.

(** The message cleanup in the words of the specification: one pass from
    left to right in which a backslash followed by a backtick becomes a
    backtick and a backslash followed by the letter n becomes a space. *)
Fixpoint cleanup_spec (message : text) : text :=
  match message with
  | [] => []
  | c :: rest =>
      match rest with
      | c' :: rest' =>
          if (c =? BACKSLASH) && (c' =? BACKTICK) then
            BACKTICK :: cleanup_spec rest'
          else if (c =? BACKSLASH) && (c' =? 110) then
            32 :: cleanup_spec rest'
          else c :: cleanup_spec rest
      | [] => [c]
      end
  end.


Fixpoint contains (p s : text) : bool :=
  match strip_prefix p s with
  | Some _ => true
  | None =>
      match s with
      | [] => false
      | _ :: s' => contains p s'
      end
  end.


(** The number of occurrences of a character. *)
Definition occurrences (c : N) (s : text) : nat :=
  length (List.filter (N.eqb c) s).

(** The resource with each backslash written as a slash. *)
Definition normalized (resource : text) : text :=
  map (fun c => if c =? BACKSLASH then SLASH else c) resource.


(** A record with a resource and a message and nothing else, written
    without blanks. *)
Definition minimal_record (resource message : text) : text :=
  str "{" ++ (quoted "resource" ++ str ":" ++ [QUOTE] ++ resource
              ++ QUOTE :: str "," ++ quoted "message" ++ str ":" ++ [QUOTE]
              ++ message ++ QUOTE :: str "}").

(** The backslash-n pair occurs in [s]. *)
Definition has_escaped_newline (s : text) : bool :=
  contains (BACKSLASH :: str "n") s.

(** ** [colorize] *)

Section Colorize.
(** The escape sequences of the library colorama. *)
Variables Fore_RED Fore_YELLOW Fore_CYAN Style_RESET_ALL : text.

(** [HAS_COLORS] is the global flag of the module. *)
Definition colorize (HAS_COLORS : bool) (s : text) : text :=
  if negb HAS_COLORS then s
  else if contains (str "ERROR") s then Fore_RED ++ s ++ Style_RESET_ALL
  else if contains (str "WARNING") s then Fore_YELLOW ++ s ++ Style_RESET_ALL
  else if contains (str "INFO") s then Fore_CYAN ++ s ++ Style_RESET_ALL
  else s.
End Colorize.

(** ** [get_unique_filename] *)

(** The pattern of [get_unique_filename] has anchors and two groups. *)
Inductive gregex : Type :=
| Bol                                                (* [^] *)
| Eol                                                (* [$] *)
| GRep (greedy : bool) (lo : nat) (cls : N -> bool)  (* as [Rep] *)
| GCat (r1 r2 : gregex)
| GGrp (i : nat) (r : gregex).                       (* group number [i] *)

(** The groups of a match in progress. *)
Definition groups : Type := nat -> option text.

Definition set_group (i : nat) (t : text) (g : groups) : groups :=
  fun j => if Nat.eqb j i then Some t else g j.

(** [gmtch whole r s g k]: as [mtch], on the suffix [s] of the subject
    [whole].  Without [re.MULTILINE], [^] matches at the start of the
    subject only, and [$] at its end or before a line feed that ends it. *)
Fixpoint gmtch {A : Type} (whole : text) (r : gregex) (s : text) (g : groups)
    (k : text -> groups -> option A) : option A :=
  match r with
  | Bol => if Nat.eqb (length s) (length whole) then k s g else None
  | Eol =>
      match s with
      | [] => k s g
      | [c] => if c =? LF then k s g else None
      | _ :: _ :: _ => None
      end
  | GRep greedy lo cls =>
      rep_least cls lo s (fun s1 =>
        (if greedy then rep_greedy else rep_lazy) cls s1 (fun s2 => k s2 g))
  | GCat r1 r2 => gmtch whole r1 s g (fun s' g' => gmtch whole r2 s' g' k)
  | GGrp i r1 =>
      gmtch whole r1 s g (fun s' g' =>
        k s' (set_group i (take (length s - length s') s) g'))
  end.

(** [re.search] for such a pattern: the groups of the leftmost match. *)
Fixpoint gsearch_from (whole : text) (r : gregex) (s : text)
    : option groups :=
  match gmtch whole r s (fun _ => None) (fun _ g => Some g) with
  | Some g => Some g
  | None =>
      match s with
      | [] => None
      | _ :: s' => gsearch_from whole r s'
      end
  end.

Definition gsearch (r : gregex) (s : text) : option groups :=
  gsearch_from s r s.

(** Start of the subject, any characters but line feeds (lazily, group
    1), one or more decimal digits (group 2), end of the subject. *)
Definition number_pattern : gregex :=
  GCat Bol (GCat (GGrp 1 (GRep false 0 (none_of [LF])))
              (GCat (GGrp 2 (GRep true 1 isdecimal)) Eol)).

(** [str(n)] of an integer, as an f-string writes it. *)
Definition repr (n : Z) : text := str (NilZero.string_of_int (Z.to_int n)).

(** [name_base] and [counter] (lines 138-144). *)
Definition name_base_and_counter (name : text) : py (text * Z) :=
  match gsearch number_pattern name with
  | Some g =>
      counter ← int (g 2%nat);
      Return (fmt (g 1%nat), counter)
  | None => Return (name, 0%Z)
  end.

Section UniqueFilename.
(** The file system and the path functions of the libraries:
    [os.path.exists], [Path(p).parent], [Path(p).name],
    [os.path.splitext] and [str(directory / filename)]. *)
Variable path_exists : text -> bool.
Variable parent : text -> text.
Variable path_name : text -> text.
Variable splitext : text -> text * text.
Variable joinpath : text -> text -> text.

(** The path tried for a counter. *)
Definition new_path (directory name_base extension : text) (counter : Z)
    : text :=
  joinpath directory (name_base ++ repr counter ++ extension).

(** The loop, for at most [fuel] iterations: [None] when it has not
    returned by then. *)
Fixpoint unique_loop (fuel : nat) (directory name_base extension : text)
    (counter : Z) : option text :=
  match fuel with
  | O => None
  | S fuel' =>
      let counter := (counter + 1)%Z in
      if negb (path_exists (new_path directory name_base extension counter))
      then Some (new_path directory name_base extension counter)
      else unique_loop fuel' directory name_base extension counter
  end.

Definition get_unique_filename (fuel : nat) (base_filename : text)
    : option (py text) :=
  if negb (path_exists base_filename) then Some (Return base_filename)
  else
    let directory := parent base_filename in
    let filename := path_name base_filename in
    let '(name, extension) := splitext filename in
    match name_base_and_counter name with
    | Raise e => Some (Raise e)
    | Return (name_base, counter) =>
        match unique_loop fuel directory name_base extension counter with
        | Some p => Some (Return p)
        | None => None
        end
    end.
End UniqueFilename.

(** ** The source under the limits of the interpreter

    CPython refuses to convert a string of more than
    [sys.get_int_max_str_digits()] digits: [int] raises [ValueError].  The
    limit is 4300 unless it is reconfigured, and 0 switches it off (the
    interpreter accepts no other value below 640).  Every digit counts,
    leading zeros included.  [json.loads] raises [JSONDecodeError] on a
    text that is not JSON, and it can raise other exceptions:
    [RecursionError] on brackets nested too deeply, and the [ValueError] of
    [int] on an integer literal above the limit.  The clauses
    [except json.JSONDecodeError] of [is_valid_json] catch the first kind
    only.

    The definitions of this module are those of the source again, with the
    limit and the outcome of [json.loads] as parameters. *)
Module Limits.
Section Interpreter.
(** [sys.get_int_max_str_digits()]. *)
Variable max_str_digits : nat.
(** [json.loads]: it returns a value, which the source discards, or
    raises. *)
Variable json_loads : text -> py unit.

(** [int(s)]. *)
Definition int (s : option text) : py Z :=
  match s with
  | None => Raise TypeError
  | Some [] => Raise ValueError
  | Some (c :: s') =>
      match int_digits 0 (c :: s') with
      | Some z =>
          if (0 <? max_str_digits)%nat
             && (max_str_digits <? length (c :: s'))%nat
          then Raise ValueError
          else Return z
      | None => Raise ValueError
      end
  end.

(** [severity] (line 88). *)
Definition severity_of (severity_match : option match_obj) : py Z :=
  match severity_match with
  | Some sm => int (group1 sm)
  | None => Return 0%Z
  end.

(** One iteration of the loop (lines 70-111). *)
Definition loop_body (max_path_depth min_severity : Z) (block : text)
    (acc : list text * gmap string Z) : py (list text * gmap string Z) :=
  let '(results, counts) := acc in
  let resource_match := search resource_pattern block in
  let severity_match := search severity_pattern block in
  let message_match := search message_pattern block in
  let code_match := search code_pattern block in
  let line_match := search line_pattern block in
  match resource_match, message_match with
  | Some rm, Some mm =>
      resource ← receiver (group1 rm);
      file_path ← file_path_of max_path_depth resource;
      severity ← severity_of severity_match;
      if (severity <? min_severity)%Z then Return (results, counts)
      else
        let msg_type := msg_type_of severity in
        counts ← incr msg_type counts;
        counts ← incr "TOTAL" counts;
        let line := line_of line_match in
        let code := code_of code_match in
        message ← receiver (group1 mm);
        let message := cleanup message in
        Return (results ++ [compact msg_type file_path line code message],
                counts)
  | _, _ => Return (results, counts)
  end.

(** [try: body except json.JSONDecodeError: handler]. *)
Definition except_JSONDecodeError {A : Type} (body handler : py A) : py A :=
  match body with
  | Raise JSONDecodeError => handler
  | Raise e => Raise e
  | Return a => Return a
  end.

(** The body of the loop over the lines (lines 38-39). *)
Definition loads_line (line : text) (_ : unit) : py unit :=
  match strip line with
  | [] => Return tt
  | _ :: _ => json_loads line
  end.

(** [is_valid_json] (lines 24-42). *)
Definition is_valid_json (content : text) : py bool :=
  except_JSONDecodeError
    (_ ← json_loads content; Return true)
    (except_JSONDecodeError
       (_ ← json_loads (str "[" ++ content ++ str "]"); Return true)
       (except_JSONDecodeError
          (_ ← for_each loads_line (split LF (strip content)) tt;
           Return true)
          (Return false))).

(** [process_file] from the point where [content] has been read (lines
    57-113): an exception of the validity check leaves the function before
    anything is printed. *)
Definition process_file (file_path content : text)
    (max_path_depth min_severity : Z)
    : list text * py (list text * gmap string Z) :=
  match is_valid_json content with
  | Raise e => ([], Raise e)
  | Return valid =>
      let printed :=
        if valid then []
        else [ str "Warning: File " ++ file_path
                 ++ str " doesn't appear to contain valid JSON";
               str "Processing anyway, but results may be incomplete." ] in
      let matches := finditer pattern content in
      (printed,
       for_each (loop_body max_path_depth min_severity) matches
         ([], counts0))
  end.
End Interpreter.
End Limits.

(** The limit of a default interpreter. *)
Definition default_max_str_digits : nat := 4300.

(** Whether a computation returns. *)
Definition returns {A : Type} (m : py A) : bool :=
  match m with
  | Return _ => true
  | Raise _ => false
  end.

(** A record whose severity has 4301 digits, after a few words that are
    not JSON. *)
Definition long_severity : text := repeat 57 4301%nat.   (* the digit 9 *)

Definition long_severity_block : text :=
  blob "{'resource':'/a/b/c.ts','severity':" ++ long_severity
  ++ blob ",'message':'oops'}".

Definition long_severity_input : text :=
  str "log: " ++ long_severity_block.

(** A hundred thousand brackets that are opened and never closed. *)
Definition open_brackets : text := repeat 91 (N.to_nat 100000).

(** * Properties *)

(** ** The matcher returns matches of the pattern *)

Lemma strip_prefix_Some p s s' : strip_prefix p s = Some s' -> s = p ++ s'.
Proof.
  revert s. induction p as [|a p IH]; intros s H; simpl in H.
  - by injection H as ->.
  - destruct s as [|b s]; [discriminate|].
    destruct (N.eqb_spec a b) as [->|]; [|discriminate].
    simpl. f_equal. auto.
Qed.

Section MatcherSound.
Context {A : Type}.
Implicit Types (k : text -> option A) (x : A).

Lemma rep_least_sound cls lo s k x :
  rep_least cls lo s k = Some x ->
  exists t s', s = t ++ s' /\ Forall (fun c => cls c = true) t
               /\ length t = lo /\ k s' = Some x.
Proof.
  revert s. induction lo as [|n IH]; intros s H; simpl in H.
  - exists [], s. auto.
  - destruct s as [|c s]; [discriminate|].
    destruct (cls c) eqn:Hc; [|discriminate].
    destruct (IH _ H) as (t & s' & -> & Ht & Hl & Hk).
    exists (c :: t), s'. simpl. auto.
Qed.

Lemma rep_greedy_sound cls s k x :
  rep_greedy cls s k = Some x ->
  exists t s', s = t ++ s' /\ Forall (fun c => cls c = true) t
               /\ k s' = Some x.
Proof.
  induction s as [|c s IH]; simpl; intros H.
  - exists [], []. auto.
  - destruct (cls c) eqn:Hc.
    + destruct (rep_greedy cls s k) as [y|] eqn:Hg.
      * destruct (IH H) as (t & s' & -> & Ht & Hk).
        exists (c :: t), s'. simpl. auto.
      * exists [], (c :: s). auto.
    + exists [], (c :: s). auto.
Qed.

Lemma rep_lazy_sound cls s k x :
  rep_lazy cls s k = Some x ->
  exists t s', s = t ++ s' /\ Forall (fun c => cls c = true) t
               /\ k s' = Some x.
Proof.
  induction s as [|c s IH]; simpl; intros H.
  - destruct (k []) eqn:Hk; [|discriminate]. injection H as ->.
    exists [], []. auto.
  - destruct (k (c :: s)) eqn:Hk.
    + injection H as ->. exists [], (c :: s). auto.
    + destruct (cls c) eqn:Hc; [|discriminate].
      destruct (IH H) as (t & s' & -> & Ht & Hk').
      exists (c :: t), s'. simpl. auto.
Qed.

Lemma mtch_sound r : forall s g (k : text -> option text -> option A) x,
  mtch r s g k = Some x ->
  exists t s' g', s = t ++ s' /\ lang r g t g' /\ k s' g' = Some x.
Proof.
  induction r as [t|greedy lo cls|r IH|r1 IH1 r2 IH2|r IH];
    intros s g k x H; simpl in H.
  - destruct (strip_prefix t s) as [s'|] eqn:Hp; [|discriminate].
    apply strip_prefix_Some in Hp. exists t, s', g.
    split; [done|]. split; [constructor|done].
  - apply rep_least_sound in H as (t1 & s1 & -> & Ht1 & Hl & H).
    assert (exists t2 s2, s1 = t2 ++ s2
              /\ Forall (fun c => cls c = true) t2 /\ k s2 g = Some x)
      as (t2 & s2 & -> & Ht2 & Hk).
    { destruct greedy;
        [apply rep_greedy_sound in H | apply rep_lazy_sound in H]; exact H. }
    exists (t1 ++ t2), s2, g. rewrite <- app_assoc. split; [done|].
    split; [|done]. constructor.
    + apply Forall_app; auto.
    + rewrite length_app. lia.
  - destruct (mtch r s g k) as [y|] eqn:Hm.
    + injection H as ->.
      destruct (IH _ _ _ _ Hm) as (t & s' & g' & -> & Hl & Hk).
      exists t, s', g'. split; [done|]. split; [by constructor|done].
    + exists [], s, g. split; [done|]. split; [apply lang_opt_none|done].
  - destruct (IH1 _ _ _ _ H) as (t1 & s1 & g1 & -> & Hl1 & H1).
    destruct (IH2 _ _ _ _ H1) as (t2 & s2 & g2 & -> & Hl2 & H2).
    exists (t1 ++ t2), s2, g2. rewrite <- app_assoc.
    split; [done|]. split; [by econstructor|done].
  - destruct (IH _ _ _ _ H) as (t & s' & g' & -> & Hl & Hk).
    exists t, s', (Some t). split; [done|]. split; [by econstructor|].
    rewrite <- Hk. do 2 f_equal. rewrite length_app.
    replace (length t + length s' - length s')%nat with (length t) by lia.
    by rewrite take_app_length.
Qed.
End MatcherSound.

Lemma match_at_sound r s m :
  match_at r s = Some m ->
  exists s', s = group0 m ++ s' /\ lang r None (group0 m) (group1 m).
Proof.
  unfold match_at. intros H.
  apply mtch_sound in H as (t & s' & g' & -> & Hl & Hk).
  injection Hk as <-. simpl. rewrite length_app.
  replace (length t + length s' - length s')%nat with (length t) by lia.
  rewrite take_app_length. eauto.
Qed.

Lemma search_sound r s m :
  search r s = Some m ->
  exists pre post,
    s = pre ++ group0 m ++ post /\ lang r None (group0 m) (group1 m).
Proof.
  induction s as [|c s IH]; simpl; intros H.
  - destruct (match_at r []) eqn:Hm; [|discriminate]. injection H as ->.
    apply match_at_sound in Hm as (s' & Hs & Hl). exists [], s'. auto.
  - destruct (match_at r (c :: s)) eqn:Hm.
    + injection H as ->.
      apply match_at_sound in Hm as (s' & Hs & Hl). exists [], s'. auto.
    + destruct (IH H) as (pre & post & -> & Hl).
      exists (c :: pre), post. auto.
Qed.

(** ** The group of each field pattern *)

Ltac lang_inv :=
  repeat match goal with
    | H : lang (_ &> _) _ _ _ |- _ => inversion H; subst; clear H
    | H : lang (Lit _) _ _ _ |- _ => inversion H; subst; clear H
    | H : lang (Rep _ _ _) _ _ _ |- _ => inversion H; subst; clear H
    | H : lang (Opt _) _ _ _ |- _ => inversion H; subst; clear H
    | H : lang (Grp _) _ _ _ |- _ => inversion H; subst; clear H
    end.

Lemma resource_group t g :
  lang resource_pattern None t g -> exists v, g = Some v /\ v <> [].
Proof.
  unfold resource_pattern. intros H. lang_inv.
  eexists. split; [done|]. intros ->. simpl in *. lia.
Qed.

Lemma message_group t g :
  lang message_pattern None t g -> exists v, g = Some v.
Proof. unfold message_pattern. intros H. lang_inv. by eexists. Qed.

Lemma digits_group key t g :
  lang (Lit key &> Rep true 0 isspace &> Lit (str ":")
        &> Rep true 0 isspace &> Grp (Rep true 1 isdecimal)) None t g ->
  exists v, g = Some v /\ v <> [] /\ Forall (fun c => isdecimal c = true) v.
Proof.
  intros H. lang_inv. eexists. split; [done|]. split; [|done].
  intros ->. simpl in *. lia.
Qed.

Lemma code_group t g :
  lang code_pattern None t g -> exists v, g = Some v.
Proof. unfold code_pattern. intros H. lang_inv; by eexists. Qed.

(** Every match of the block pattern starts with an opening brace. *)
Lemma pattern_brace t g :
  lang pattern None t g -> exists t', t = 123 :: t'.
Proof. unfold pattern. intros H. lang_inv; by eexists. Qed.

(** ** The operations of the loop body return *)

Lemma decimal_nonneg c d : decimal c = Some d -> (0 <= d)%Z.
Proof.
  unfold decimal. generalize decimal_blocks.
  induction l as [|b l IH]; simpl; [done|].
  destruct (_ && _); [|done]. intros [= <-]. lia.
Qed.

Lemma int_digits_total v : forall acc,
  (0 <= acc)%Z -> Forall (fun c => isdecimal c = true) v ->
  exists z, int_digits acc v = Some z /\ (0 <= z)%Z.
Proof.
  induction v as [|c v IH]; simpl; intros acc Hacc Hv.
  - eauto.
  - inversion Hv as [|? ? Hc Hv']; subst. unfold isdecimal in Hc.
    destruct (decimal c) as [d|] eqn:Hd; [|discriminate].
    apply decimal_nonneg in Hd. apply IH; [lia|done].
Qed.

Lemma int_total v :
  v <> [] -> Forall (fun c => isdecimal c = true) v ->
  exists z, int (Some v) = Return z /\ (0 <= z)%Z.
Proof.
  intros Hne Hv. destruct v as [|c v]; [done|]. unfold int.
  destruct (int_digits_total (c :: v) 0%Z) as (z & -> & Hz); [lia|done|].
  eauto.
Qed.

Lemma severity_of_total block :
  exists z, severity_of (search severity_pattern block) = Return z
            /\ (0 <= z)%Z.
Proof.
  destruct (search severity_pattern block) as [sm|] eqn:Hs; simpl.
  - apply search_sound in Hs as (_ & _ & _ & Hl).
    apply digits_group in Hl as (v & -> & Hne & Hv). by apply int_total.
  - exists 0%Z. split; [done|lia].
Qed.

Lemma split_nonempty sep s : split sep s <> [].
Proof.
  destruct s as [|c s]; simpl; [done|].
  destruct (c =? sep); [done|]. by destruct (split sep s).
Qed.

Lemma file_path_of_total d resource :
  exists p, file_path_of d resource = Return p.
Proof.
  unfold file_path_of, subscript_last.
  destruct (_ && _); [by eexists|].
  destruct (last (path_parts resource)) as [x|] eqn:Hl; [by eexists|].
  apply last_None in Hl. by apply split_nonempty in Hl.
Qed.

(** ** One iteration *)

(** A block in which [resource] and [message] are found: the iteration
    returns, and what it does depends on the accumulators only through
    the two increments. *)
Lemma loop_body_found d m block rm mm :
  search resource_pattern block = Some rm ->
  search message_pattern block = Some mm ->
  exists resource message file_path severity,
    group1 rm = Some resource /\ group1 mm = Some message
    /\ file_path_of d resource = Return file_path
    /\ severity_of (search severity_pattern block) = Return severity
    /\ (0 <= severity)%Z
    /\ forall results counts,
         loop_body d m block (results, counts) =
         if (severity <? m)%Z then Return (results, counts)
         else
           counts ← incr (msg_type_of severity) counts;
           counts ← incr "TOTAL" counts;
           Return (results ++
                     [compact (msg_type_of severity) file_path
                        (line_of (search line_pattern block))
                        (code_of (search code_pattern block))
                        (cleanup message)],
                   counts).
Proof.
  intros Hr Hm.
  destruct (search_sound _ _ _ Hr) as (_ & _ & _ & Hlr).
  destruct (search_sound _ _ _ Hm) as (_ & _ & _ & Hlm).
  apply resource_group in Hlr as (resource & Hgr & _).
  apply message_group in Hlm as (message & Hgm).
  destruct (file_path_of_total d resource) as (p & Hp).
  destruct (severity_of_total block) as (z & Hz & Hz0).
  exists resource, message, p, z. repeat (split; [done|]).
  intros results counts. unfold loop_body. rewrite Hr, Hm, Hgr, Hgm.
  simpl. rewrite Hp. simpl. rewrite Hz. simpl.
  destruct (z <? m)%Z; [done|].
  destruct (incr (msg_type_of z) counts) as [c1|]; simpl; [|done].
  by destruct (incr "TOTAL" c1).
Qed.

(** A block in which [resource] or [message] is not found. *)
Lemma loop_body_not_found d m block acc :
  search resource_pattern block = None
  \/ search message_pattern block = None ->
  loop_body d m block acc = Return acc.
Proof.
  destruct acc as [results counts]. unfold loop_body.
  intros [-> | ->]; [done|]. by destruct (search resource_pattern block).
Qed.

(** ** The counters *)

Lemma msg_type_of_cases z :
  (8 <= z /\ msg_type_of z = "ERROR")%Z
  \/ (4 <= z < 8 /\ msg_type_of z = "WARNING")%Z
  \/ (z < 4 /\ msg_type_of z = "INFO")%Z.
Proof.
  unfold msg_type_of. rewrite !Z.geb_leb.
  destruct (Z.leb_spec 8 z); [by left|].
  destruct (Z.leb_spec 4 z); [right; left | right; right]; split; done || lia.
Qed.

Lemma total_is_sum_keys counts : total_is_sum counts -> has_keys counts.
Proof.
  intros (e & w & i & t & He & Hw & Hi & Ht & _).
  unfold has_keys. rewrite He, Hw, Hi, Ht. eauto.
Qed.

Lemma total_is_sum_counts0 : total_is_sum counts0.
Proof. exists 0%Z, 0%Z, 0%Z, 0%Z. by vm_compute. Qed.

(** The two increments of an emitted record. *)
Lemma incr_incr z counts :
  has_keys counts ->
  exists e t,
    counts !! msg_type_of z = Some e /\ counts !! "TOTAL" = Some t
    /\ incr (msg_type_of z) counts
       = Return (<[msg_type_of z := (e + 1)%Z]> counts)
    /\ incr "TOTAL" (<[msg_type_of z := (e + 1)%Z]> counts)
       = Return (<["TOTAL" := (t + 1)%Z]>
                   (<[msg_type_of z := (e + 1)%Z]> counts)).
Proof.
  unfold has_keys, is_Some. intros ((e & He) & (w & Hw) & (i & Hi) & (t & Ht)).
  destruct (msg_type_of_cases z) as [[_ ->] | [[_ ->] | [_ ->]]];
    [exists e, t | exists w, t | exists i, t]; unfold incr;
    by simplify_map_eq.
Qed.

Lemma total_is_sum_incr z counts e t :
  total_is_sum counts ->
  counts !! msg_type_of z = Some e -> counts !! "TOTAL" = Some t ->
  total_is_sum (<["TOTAL" := (t + 1)%Z]>
                  (<[msg_type_of z := (e + 1)%Z]> counts)).
Proof.
  intros (e' & w & i & t' & He & Hw & Hi & Ht & Hsum) Hz Ht'.
  unfold total_is_sum.
  destruct (msg_type_of_cases z) as [[_ Hty] | [[_ Hty] | [_ Hty]]];
    rewrite Hty in *; simplify_eq; do 4 eexists;
    repeat (rewrite lookup_insert_eq || rewrite lookup_insert_ne by done);
    repeat (split; [first [reflexivity | eassumption]|]); lia.
Qed.

(** ** One iteration, from any accumulators *)

(** An iteration returns; it appends what [emitted] says, keeps
    [TOTAL == ERROR + WARNING + INFO], and adds to [TOTAL] the number of
    lines it appends. *)
Lemma loop_body_step d m block results counts :
  total_is_sum counts ->
  exists counts' t,
    loop_body d m block (results, counts)
    = Return (results ++ emitted d m block, counts')
    /\ total_is_sum counts'
    /\ counts !! "TOTAL" = Some t
    /\ counts' !! "TOTAL"
       = Some (t + Z.of_nat (length (emitted d m block)))%Z.
Proof.
  intros Hsum. pose proof Hsum as (_ & _ & _ & t & _ & _ & _ & Ht & _).
  unfold emitted.
  destruct (search resource_pattern block) as [rm|] eqn:Hr;
    [destruct (search message_pattern block) as [mm|] eqn:Hm|].
  - destruct (loop_body_found d m block rm mm Hr Hm)
      as (resource & message & p & z & _ & _ & _ & _ & _ & Hbody).
    rewrite !Hbody. destruct (z <? m)%Z.
    + exists counts, t. rewrite app_nil_r, Z.add_0_r. done.
    + destruct (incr_incr z counts (total_is_sum_keys _ Hsum))
        as (e & t' & He & Ht' & -> & Hi2).
      destruct (incr_incr z counts0 (total_is_sum_keys _ total_is_sum_counts0))
        as (e0 & t0 & _ & _ & -> & Hi0).
      simpl. rewrite Hi2, Hi0. simpl.
      eexists _, t. split; [done|].
      split; [by apply total_is_sum_incr|]. split; [done|].
      rewrite lookup_insert_eq. by simplify_eq/=.
  - rewrite !loop_body_not_found by auto. exists counts, t.
    rewrite app_nil_r, Z.add_0_r. done.
  - rewrite !loop_body_not_found by auto. exists counts, t.
    rewrite app_nil_r, Z.add_0_r. done.
Qed.

(** ** The loop *)

Lemma for_each_loop d m blocks : forall results counts,
  total_is_sum counts ->
  exists counts' t,
    for_each (loop_body d m) blocks (results, counts)
    = Return (results ++ flat_map (emitted d m) blocks, counts')
    /\ total_is_sum counts'
    /\ counts !! "TOTAL" = Some t
    /\ counts' !! "TOTAL"
       = Some (t + Z.of_nat (length (flat_map (emitted d m) blocks)))%Z.
Proof.
  induction blocks as [|b blocks IH]; intros results counts Hsum;
    cbn [for_each flat_map].
  - pose proof Hsum as (_ & _ & _ & t & _ & _ & _ & Ht & _).
    exists counts, t. rewrite app_nil_r, Z.add_0_r. done.
  - destruct (loop_body_step d m b results counts Hsum)
      as (c1 & t & -> & Hsum1 & Ht & Ht1). cbn [mbind py_bind].
    destruct (IH (results ++ emitted d m b) c1 Hsum1)
      as (c2 & t1 & -> & Hsum2 & Ht1' & Ht2).
    exists c2, t. rewrite <- app_assoc. repeat (split; [done|]).
    rewrite Ht2, length_app. f_equal. rewrite Ht1 in Ht1'.
    injection Ht1' as <-. lia.
Qed.

(** ** The blocks of [finditer] *)

Lemma occur_in_order_later c bs s :
  occur_in_order bs s -> occur_in_order bs (c :: s).
Proof.
  intros H. destruct H as [s|pre b bs rest H]; [constructor|].
  by apply (occur_cons (c :: pre)).
Qed.

Lemma finditer_from_order r s : forall skip,
  occur_in_order (finditer_from r skip s) (drop skip s).
Proof.
  induction s as [|c s IH]; intros [|n]; simpl; try constructor.
  - destruct (match_at r []) as [m|] eqn:Hm; [|constructor].
    apply match_at_sound in Hm as (s' & Hs & _).
    symmetry in Hs. apply app_eq_nil in Hs as [-> ->].
    apply (occur_cons [] [] [] []). constructor.
  - destruct (match_at r (c :: s)) as [m|] eqn:Hm.
    + apply match_at_sound in Hm as (s' & Hs & _).
      destruct (group0 m) as [|c' b]; simpl in Hs.
      * apply (occur_cons [] [] _ (c :: s)), occur_in_order_later.
        apply (IH 0%nat).
      * injection Hs as <- ->. apply (occur_cons [] (c :: b) _ s').
        specialize (IH (length b)). rewrite drop_app_length in IH.
        simpl. by rewrite Nat.sub_0_r.
    + apply occur_in_order_later, (IH 0%nat).
  - apply IH.
Qed.

Lemma finditer_from_lang r s : forall skip,
  Forall (fun b => exists g, lang r None b g) (finditer_from r skip s).
Proof.
  induction s as [|c s IH]; intros [|n]; simpl; try constructor.
  - destruct (match_at r []) as [m|] eqn:Hm; [|constructor].
    apply match_at_sound in Hm as (s' & _ & Hl). constructor; eauto.
  - destruct (match_at r (c :: s)) as [m|] eqn:Hm; [|apply IH].
    apply match_at_sound in Hm as (s' & _ & Hl). constructor; eauto.
  - apply IH.
Qed.

(** The blocks are found from left to right and do not overlap. *)
Lemma finditer_order r s : occur_in_order (finditer r s) s.
Proof. apply (finditer_from_order r s 0). Qed.

Lemma occur_in_order_substring bs s b :
  occur_in_order bs s -> b ∈ bs -> exists pre post, s = pre ++ b ++ post.
Proof.
  induction 1 as [s|pre b' bs rest H IH]; intros Hb.
  - by apply elem_of_nil in Hb.
  - apply elem_of_cons in Hb as [->|Hb]; [by eauto|].
    destruct (IH Hb) as (pre' & post & ->).
    exists (pre ++ b' ++ pre'), post. by rewrite <- !app_assoc.
Qed.

(** A text without a substring of the shape of the block pattern has no
    block. *)
Lemma finditer_none r s :
  (forall pre b post g, s = pre ++ b ++ post -> ~ lang r None b g) ->
  finditer r s = [].
Proof.
  intros Hnone. destruct (finditer r s) as [|b bs] eqn:Hf; [done|].
  pose proof (finditer_order r s) as Ho.
  pose proof (finditer_from_lang r s 0) as Hl.
  unfold finditer in *. rewrite Hf in Ho, Hl.
  apply Forall_cons in Hl as [(g & Hg) _].
  destruct (occur_in_order_substring _ _ b Ho) as (pre & post & Hs);
    [by left|].
  by destruct (Hnone pre b post g).
Qed.

(** ** [replace], [split] and [join] *)

(** Replacing one character by another is a character map. *)
Lemma replace_char a b s :
  replace [a] [b] s = map (fun c => if c =? a then b else c) s.
Proof.
  unfold replace. induction s as [|c s IH]; simpl; [done|].
  rewrite (N.eqb_sym c a). destruct (a =? c); simpl; by rewrite IH.
Qed.

(** Joining the components of a split gives the text back. *)
Lemma join_split sep s : join [sep] (split sep s) = s.
Proof.
  induction s as [|c s IH]; simpl; [done|].
  destruct (N.eqb_spec c sep) as [->|Hne].
  - pose proof (split_nonempty sep s).
    destruct (split sep s) as [|p rest] eqn:Hs; [done|].
    simpl. by rewrite <- IH.
  - pose proof (split_nonempty sep s).
    destruct (split sep s) as [|p rest] eqn:Hs; [done|].
    rewrite <- IH. by destruct rest.
Qed.

(** No component of a split contains the separator. *)
Lemma split_no_sep sep s :
  Forall (fun part => sep ∉ part) (split sep s).
Proof.
  induction s as [|c s IH]; simpl.
  - constructor; [apply not_elem_of_nil|constructor].
  - destruct (N.eqb_spec c sep) as [->|Hne].
    + constructor; [apply not_elem_of_nil|done].
    + destruct (split sep s) as [|p rest];
        [constructor; [|constructor]|].
      * rewrite list_elem_of_singleton. congruence.
      * apply Forall_cons in IH as [Hp Hrest]. constructor; [|done].
        rewrite not_elem_of_cons. split; [congruence|done].
Qed.

Lemma list_ind2 {A : Type} (P : list A -> Prop) :
  P [] -> (forall a, P [a]) ->
  (forall a b l, P l -> P (b :: l) -> P (a :: b :: l)) ->
  forall l, P l.
Proof.
  intros Hnil Hone Hstep l.
  assert (P l /\ forall a, P (a :: l)) as [H _]; [|done].
  induction l as [|b l [IH1 IH2]]; [by split|].
  split; [apply IH2|]. intros a. apply Hstep; [done|apply IH2].
Qed.

(** ** The message cleanup *)

(** The first replacement leaves the first character in place or puts a
    backtick there. *)
Lemma unescape_backtick_head c s :
  exists tl,
    replace [BACKSLASH; BACKTICK] [BACKTICK] (c :: s) = c :: tl
    \/ replace [BACKSLASH; BACKTICK] [BACKTICK] (c :: s) = BACKTICK :: tl.
Proof.
  unfold replace. cbn [replace_from].
  destruct (strip_prefix _ _); eexists; [by right|by left].
Qed.

Lemma cleanup_spec_cons a b l :
  cleanup_spec (a :: b :: l) =
  if (a =? BACKSLASH) && (b =? BACKTICK) then BACKTICK :: cleanup_spec l
  else if (a =? BACKSLASH) && (b =? 110) then 32 :: cleanup_spec l
  else a :: cleanup_spec (b :: l).
Proof. reflexivity. Qed.

(** The two replacements, one after the other, are the single pass of the
    specification. *)
Lemma cleanup_is_spec message : cleanup message = cleanup_spec message.
Proof.
  unfold cleanup. change (str "n") with [110]. change (str " ") with [32].
  induction message as [|a|a b l IH1 IH2] using list_ind2; [done|..].
  - unfold replace. cbn [replace_from strip_prefix].
    destruct (BACKSLASH =? a) eqn:Ha; cbn [replace_from strip_prefix];
      by rewrite Ha.
  - rewrite cleanup_spec_cons, (N.eqb_sym a BACKSLASH).
    destruct (N.eqb_spec BACKSLASH a) as [<-|Ha]; simpl andb.
    + destruct (N.eqb_spec b BACKTICK) as [->|Hb1].
      { rewrite <- IH1. done. }
      destruct (N.eqb_spec b 110) as [->|Hb2].
      { rewrite <- IH1. done. }
      rewrite <- IH2.
      assert (replace [BACKSLASH; BACKTICK] [BACKTICK] (BACKSLASH :: b :: l)
              = BACKSLASH :: replace [BACKSLASH; BACKTICK] [BACKTICK] (b :: l))
        as ->.
      { unfold replace. cbn [replace_from strip_prefix].
        rewrite N.eqb_refl. destruct (N.eqb_spec BACKTICK b); [congruence|].
        done. }
      destruct (unescape_backtick_head b l) as (tl & [-> | ->]);
        unfold replace; cbn [replace_from strip_prefix]; rewrite N.eqb_refl.
      * destruct (N.eqb_spec 110 b); [congruence|done].
      * done.
    + rewrite <- IH2.
      assert (replace [BACKSLASH; BACKTICK] [BACKTICK] (a :: b :: l)
              = a :: replace [BACKSLASH; BACKTICK] [BACKTICK] (b :: l)) as ->.
      { unfold replace. cbn [replace_from strip_prefix].
        destruct (N.eqb_spec BACKSLASH a); [congruence|done]. }
      unfold replace at 1. cbn [replace_from strip_prefix].
      destruct (N.eqb_spec BACKSLASH a); [congruence|done].
Qed.

(** The cleanup neither removes nor adds a line feed. *)
Lemma cleanup_line_feed message : LF ∈ cleanup message <-> LF ∈ message.
Proof.
  rewrite cleanup_is_spec.
  induction message as [|a|a b l IH1 IH2] using list_ind2; [done..|].
  rewrite cleanup_spec_cons.
  destruct (N.eqb_spec a BACKSLASH) as [->|Ha]; simpl andb.
  - destruct (N.eqb_spec b BACKTICK) as [->|Hb1];
      [|destruct (N.eqb_spec b 110) as [->|Hb2]].
    + rewrite !elem_of_cons, IH1. unfold LF, BACKSLASH, BACKTICK.
      intuition congruence.
    + rewrite !elem_of_cons, IH1. unfold LF, BACKSLASH.
      intuition congruence.
    + rewrite !elem_of_cons, IH2, elem_of_cons. done.
  - rewrite !elem_of_cons, IH2, elem_of_cons. done.
Qed.

(** * The claims *)

(** ** Severity classification *)



(** ** The canonical line *)

(** C2. On an input that holds the diagnostic with resource /a/b/c.ts,
    severity 9, message oops, code TS2304 and startLineNumber 42,
    [process_file] with a path depth of 1 and a minimum severity of 0
    returns exactly the line ERROR [c.ts:42] TS2304: oops, with ERROR and
    TOTAL at 1 and the other counters at 0; from any counters, the
    iteration on that block appends this line and adds 1 to ERROR and to
    TOTAL; the line is the template of category, path, line, code and
    message. *)
Theorem canonical_line :
  finditer pattern sample = [sample_block]
  /\ (forall json_loads file_path,
        snd (process_file json_loads file_path sample 1 0)
        = Return ([str "ERROR [c.ts:42] TS2304: oops"],
                  <["TOTAL" := 1%Z]> (<["ERROR" := 1%Z]> counts0)))
  /\ (forall results counts e t,
        counts !! "ERROR" = Some e -> counts !! "TOTAL" = Some t ->
        loop_body 1 0 sample_block (results, counts)
        = Return (results ++ [str "ERROR [c.ts:42] TS2304: oops"],
                  <["TOTAL" := (t + 1)%Z]> (<["ERROR" := (e + 1)%Z]> counts)))
  /\ compact "ERROR" (str "c.ts") (str "42") (str "TS2304") (str "oops")
     = str "ERROR [c.ts:42] TS2304: oops".
Proof.
  split; [vm_compute; reflexivity|]. split; [intros; vm_compute; reflexivity|].
  split; [|vm_compute; reflexivity].
  intros results counts e t He Ht.
  assert (is_Some (search resource_pattern sample_block)) as [rm Hr]
    by (vm_compute; eexists; reflexivity).
  assert (is_Some (search message_pattern sample_block)) as [mm Hm]
    by (vm_compute; eexists; reflexivity).
  destruct (loop_body_found 1 0 sample_block rm mm Hr Hm)
    as (resource & message & p & z & Hgr & Hgm & Hp & Hz & _ & ->).
  assert (resource = str "/a/b/c.ts") as ->.
  { revert Hr Hgr. vm_compute. intros [= <-] [= <-]. reflexivity. }
  assert (message = str "oops") as ->.
  { revert Hm Hgm. vm_compute. intros [= <-] [= <-]. reflexivity. }
  assert (p = str "c.ts") as -> by (revert Hp; vm_compute; congruence).
  assert (z = 9%Z) as -> by (revert Hz; vm_compute; congruence).
  change (msg_type_of 9) with "ERROR". cbn [Z.ltb Z.compare].
  unfold incr. rewrite He. cbn [mbind py_bind].
  rewrite lookup_insert_ne, Ht by done. cbn [mbind py_bind].
  do 3 f_equal.
Qed.

Lemma canonical_line_witness :
  counts0 !! "ERROR" = Some 0%Z /\ counts0 !! "TOTAL" = Some 0%Z
  /\ loop_body 1 0 sample_block ([], counts0)
     = Return ([] ++ [str "ERROR [c.ts:42] TS2304: oops"],
               <["TOTAL" := (0 + 1)%Z]> (<["ERROR" := (0 + 1)%Z]> counts0)).
Proof.
  split; [reflexivity|]. split; [reflexivity|].
  apply (proj1 (proj2 (proj2 canonical_line))); reflexivity.
Defined.

(** ** Path shortening *)

Lemma slice_last_split {A : Type} (n : nat) (l : list A) :
  (n < length l)%nat ->
  exists front, l = front ++ slice_last n l /\ length (slice_last n l) = n.
Proof.
  intros Hn. unfold slice_last. exists (take (length l - n) l).
  split; [by rewrite take_drop|]. rewrite length_drop. lia.
Qed.

Lemma last_split {A : Type} (l : list A) x :
  last l = Some x -> exists front, l = front ++ [x].
Proof.
  intros H. induction l as [|a l IH]; [done|].
  destruct l as [|b l].
  - injection H as ->. by exists [].
  - destruct (IH H) as (front & ->). by exists (a :: front).
Qed.





(** ** The severity filter *)

(** C4, as the claim states it, fails: the record of severity 3 is found
    in the input, and with a minimum severity of 5 nothing is returned for
    it, so it does not appear in the output sequence. *)
Lemma severity_filter_counterexample :
  finditer pattern severity3_block = [severity3_block]
  /\ severity_of (search severity_pattern severity3_block) = Return 3%Z
  /\ snd (process_file (fun _ => true) [] severity3_block 1 5)
     = Return ([], counts0)
  /\ ~ (exists line results counts,
          snd (process_file (fun _ => true) [] severity3_block 1 5)
          = Return (results, counts)
          /\ line ∈ results).
Proof.
  assert (snd (process_file (fun _ => true) [] severity3_block 1 5)
          = Return ([], counts0)) as Hres by (vm_compute; reflexivity).
  split; [vm_compute; reflexivity|]. split; [vm_compute; reflexivity|].
  split; [exact Hres|].
  intros (line & results & counts & Heq & Hin).
  rewrite Hres in Heq. injection Heq as <- _. by apply elem_of_nil in Hin.
Qed.

(** C4, amended. In a block where [resource] and [message] are found and
    whose severity (0 when the field is absent) is below the minimum, the
    iteration leaves [results] and [counts] as they are: the record does
    not appear in the output and no counter changes.  When the severity
    equals the minimum, the iteration appends one line and adds 1 to
    TOTAL. *)
Theorem severity_filter (d m : Z) (block : text) (severity : Z) :
  is_Some (search resource_pattern block) ->
  is_Some (search message_pattern block) ->
  severity_of (search severity_pattern block) = Return severity ->
  ((severity < m)%Z ->
     emitted d m block = []
     /\ forall acc, loop_body d m block acc = Return acc)
  /\ (severity = m ->
      forall results counts, total_is_sum counts ->
      exists line counts' t,
        loop_body d m block (results, counts)
        = Return (results ++ [line], counts')
        /\ counts !! "TOTAL" = Some t
        /\ counts' !! "TOTAL" = Some (t + 1)%Z
        /\ total_is_sum counts').
Proof.
  intros [rm Hr] [mm Hm] Hsev.
  destruct (loop_body_found d m block rm mm Hr Hm)
    as (resource & message & p & z & _ & _ & _ & Hz & _ & Hbody).
  assert (z = severity) as -> by congruence. split.
  - intros Hlt. unfold emitted. rewrite Hbody.
    destruct (Z.ltb_spec severity m); [|lia]. split; [done|].
    intros [results counts]. rewrite Hbody.
    by destruct (Z.ltb_spec severity m); [|lia].
  - intros Heq results counts Hsum. rewrite Hbody.
    destruct (Z.ltb_spec severity m); [lia|].
    destruct (incr_incr severity counts (total_is_sum_keys _ Hsum))
      as (e & t & He & Ht & -> & Hi2).
    cbn [mbind py_bind]. rewrite Hi2. cbn [mbind py_bind].
    eexists _, _, t. split; [done|]. split; [done|].
    split; [by rewrite lookup_insert_eq|by apply total_is_sum_incr].
Qed.

Lemma severity_filter_witness :
  is_Some (search resource_pattern severity3_block)
  /\ is_Some (search message_pattern severity3_block)
  /\ severity_of (search severity_pattern severity3_block) = Return 3%Z
  /\ (3 < 5)%Z
  /\ emitted 1 5 severity3_block = []
  /\ (forall acc, loop_body 1 5 severity3_block acc = Return acc)
  /\ is_Some (search resource_pattern severity5_block)
  /\ is_Some (search message_pattern severity5_block)
  /\ severity_of (search severity_pattern severity5_block) = Return 5%Z
  /\ total_is_sum counts0
  /\ exists line counts' t,
       loop_body 1 5 severity5_block ([], counts0)
       = Return ([] ++ [line], counts')
       /\ counts0 !! "TOTAL" = Some t
       /\ counts' !! "TOTAL" = Some (t + 1)%Z
       /\ total_is_sum counts'.
Proof.
  assert (is_Some (search resource_pattern severity3_block)) as Hr3
    by (vm_compute; eexists; reflexivity).
  assert (is_Some (search message_pattern severity3_block)) as Hm3
    by (vm_compute; eexists; reflexivity).
  assert (is_Some (search resource_pattern severity5_block)) as Hr5
    by (vm_compute; eexists; reflexivity).
  assert (is_Some (search message_pattern severity5_block)) as Hm5
    by (vm_compute; eexists; reflexivity).
  assert (severity_of (search severity_pattern severity3_block)
          = Return 3%Z) as Hs3 by (vm_compute; reflexivity).
  assert (severity_of (search severity_pattern severity5_block)
          = Return 5%Z) as Hs5 by (vm_compute; reflexivity).
  do 3 (split; [assumption|]). split; [reflexivity|].
  assert (3 < 5)%Z as Hlt by reflexivity.
  split;
    [apply (proj1 (severity_filter 1 5 severity3_block 3 Hr3 Hm3 Hs3) Hlt)|].
  split;
    [apply (proj1 (severity_filter 1 5 severity3_block 3 Hr3 Hm3 Hs3) Hlt)|].
  do 3 (split; [assumption|]). split; [apply total_is_sum_counts0|].
  apply (proj2 (severity_filter 1 5 severity5_block 5 Hr5 Hm5 Hs5) eq_refl).
  apply total_is_sum_counts0.
Defined.

(** ** Required fields *)

(** C5. When [resource] or [message] is not found in a block, the
    iteration returns the accumulators as they are: no line, no counter
    changed, nothing raised.  A block with a resource and no message is
    such a block, and [process_file] returns no line and the initial
    counters for it. *)
Theorem missing_required_field :
  (forall d m block acc,
     search resource_pattern block = None
     \/ search message_pattern block = None ->
     loop_body d m block acc = Return acc /\ emitted d m block = [])
  /\ finditer pattern no_message_block = [no_message_block]
  /\ is_Some (search resource_pattern no_message_block)
  /\ search message_pattern no_message_block = None
  /\ (forall json_loads file_path d m,
        snd (process_file json_loads file_path no_message_block d m)
        = Return ([], counts0)).
Proof.
  split.
  { intros d m block acc H. split; [by apply loop_body_not_found|].
    unfold emitted. by rewrite loop_body_not_found. }
  split; [vm_compute; reflexivity|]. split; [vm_compute; eexists; reflexivity|].
  assert (search message_pattern no_message_block = None) as Hm
    by (vm_compute; reflexivity).
  split; [done|]. intros json_loads file_path d m. unfold process_file.
  change (finditer pattern no_message_block) with [no_message_block].
  cbn [snd for_each]. rewrite loop_body_not_found by auto. done.
Qed.

Lemma missing_required_field_witness :
  (search resource_pattern no_message_block = None
   \/ search message_pattern no_message_block = None)
  /\ loop_body 1 0 no_message_block ([], counts0) = Return ([], counts0)
  /\ emitted 1 0 no_message_block = [].
Proof.
  assert (search resource_pattern no_message_block = None
          \/ search message_pattern no_message_block = None) as H
    by (right; vm_compute; reflexivity).
  split; [exact H|].
  apply (proj1 missing_required_field 1%Z 0%Z no_message_block
           ([], counts0) H).
Defined.

(** ** Message cleanup *)

(** What an iteration appends is at most one line, which ends with the
    cleaned message. *)
Lemma emitted_cases d m block :
  emitted d m block = []
  \/ exists rm mm resource message file_path severity,
       search resource_pattern block = Some rm
       /\ search message_pattern block = Some mm
       /\ group1 rm = Some resource /\ group1 mm = Some message
       /\ file_path_of d resource = Return file_path
       /\ severity_of (search severity_pattern block) = Return severity
       /\ (m <= severity)%Z
       /\ emitted d m block
          = [compact (msg_type_of severity) file_path
               (line_of (search line_pattern block))
               (code_of (search code_pattern block)) (cleanup message)].
Proof.
  unfold emitted.
  destruct (search resource_pattern block) as [rm|] eqn:Hr;
    [destruct (search message_pattern block) as [mm|] eqn:Hm|].
  - destruct (loop_body_found d m block rm mm Hr Hm)
      as (resource & message & p & z & Hgr & Hgm & Hp & Hz & _ & Hbody).
    rewrite Hbody. destruct (Z.ltb_spec z m); [by left|]. right.
    destruct (incr_incr z counts0 (total_is_sum_keys _ total_is_sum_counts0))
      as (e & t & _ & _ & -> & Hi2).
    cbn [mbind py_bind]. rewrite Hi2. cbn [mbind py_bind].
    exists rm, mm, resource, message, p, z. by rewrite Hz.
  - left. by rewrite loop_body_not_found by auto.
  - left. by rewrite loop_body_not_found by auto.
Qed.


(** The two replacements are those of the claim: every line appended for
    a block ends with the cleaned message, which is the extracted message
    with each backslash-backtick pair replaced by a backtick and each
    backslash-n pair replaced by a space, in one pass from left to
    right. *)
Lemma message_cleanup (d m : Z) (block : text) (mm : match_obj)
    (message : text) :
  search message_pattern block = Some mm ->
  group1 mm = Some message ->
  (forall line, line ∈ emitted d m block ->
     exists head, line = head ++ str ": " ++ cleanup message)
  /\ cleanup message
     = replace (BACKSLASH :: str "n") (str " ")
         (replace [BACKSLASH; BACKTICK] [BACKTICK] message)
  /\ cleanup message = cleanup_spec message.
Proof.
  intros Hm Hgm. split; [|split; [done|]].
  - intros line Hin.
    destruct (emitted_cases d m block)
      as [He | (rm & mm' & resource & message' & p & z & _ & Hm' & _ & Hgm'
                & _ & _ & _ & He)];
      rewrite He in Hin; [by apply elem_of_nil in Hin|].
    apply list_elem_of_singleton in Hin as ->.
    assert (message' = message) as -> by congruence.
    unfold compact.
    exists (str (msg_type_of z) ++ str " [" ++ p ++ str ":"
            ++ line_of (search line_pattern block) ++ str "] "
            ++ code_of (search code_pattern block)).
    by rewrite <- !app_assoc.
  - apply cleanup_is_spec.
Qed.

Lemma message_cleanup_witness :
  (group1 <$> search message_pattern escaped_block)
  = Some (Some (str "no \`x\` here\nsee above"))
  /\ emitted 1 0 escaped_block
     = [str "ERROR [c.ts:1] : no `x` here see above"]
  /\ cleanup (str "no \`x\` here\nsee above") = str "no `x` here see above"
  /\ forall line, line ∈ emitted 1 0 escaped_block ->
     exists head,
       line = head ++ str ": " ++ cleanup (str "no \`x\` here\nsee above").
Proof.
  split; [vm_compute; reflexivity|]. split; [vm_compute; reflexivity|].
  split; [vm_compute; reflexivity|].
  destruct (search message_pattern escaped_block) as [mm|] eqn:Hm;
    [|by vm_compute in Hm].
  assert (group1 mm = Some (str "no \`x\` here\nsee above")) as Hg.
  { revert Hm. vm_compute. by intros [= <-]. }
  apply (proj1 (message_cleanup 1 0 escaped_block mm _ Hm Hg)).
Defined.

(** C6. The claim fails on the code, which misses a case.  Line 106
    says that it replaces newlines with spaces, and what it replaces is
    the escape sequence of two characters only.  The message of this
    record holds a line feed itself: the block pattern and the message
    pattern go across it, neither replacement touches it, and the line
    returned for the record, once written out, is two lines. *)
Theorem message_line_feed_kept :
  finditer pattern two_line_block = [two_line_block]
  /\ (group1 <$> search message_pattern two_line_block)
     = Some (Some two_line_message)
  /\ cleanup two_line_message = two_line_message
  /\ snd (process_file (fun _ => true) [] two_line_block 1 0)
     = Return ([str "ERROR [c.ts:1] : " ++ two_line_message],
               <["TOTAL" := 1%Z]> (<["ERROR" := 1%Z]> counts0))
  /\ LF ∈ cleanup two_line_message
  /\ split LF (str "ERROR [c.ts:1] : " ++ two_line_message)
     = [str "ERROR [c.ts:1] : first"; str "second"].
Proof.
  split; [vm_compute; reflexivity|]. split; [vm_compute; reflexivity|].
  split; [vm_compute; reflexivity|]. split; [vm_compute; reflexivity|].
  split; [|vm_compute; reflexivity].
  apply cleanup_line_feed. unfold two_line_message.
  apply elem_of_app. right. by left.
Qed.

(** ** The counters *)



(** ** Order *)


(** ** Failure *)

(** Below its limit, or with the limit switched off, [int] converts as at
    the top level. *)
Lemma limits_int_within limit t :
  (limit = 0 \/ length t <= limit)%nat ->
  Limits.int limit (Some t) = int (Some t).
Proof.
  intros Hlen. unfold Limits.int, int. destruct t as [|c t]; [done|].
  destruct (int_digits 0 (c :: t)); [|done].
  destruct (Nat.ltb_spec 0 limit); [|done].
  destruct (Nat.ltb_spec limit (length (c :: t))); [lia|done].
Qed.

Lemma limits_loop_body_within limit d m block acc :
  (forall sm t,
     search severity_pattern block = Some sm -> group1 sm = Some t ->
     (limit = 0 \/ length t <= limit)%nat) ->
  Limits.loop_body limit d m block acc = loop_body d m block acc.
Proof.
  intros Hlen. destruct acc as [results counts].
  unfold Limits.loop_body, loop_body.
  destruct (search resource_pattern block) as [rm|]; [|done].
  destruct (search message_pattern block) as [mm|]; [|done].
  destruct (receiver (group1 rm)) as [resource|]; [|done].
  cbn [mbind py_bind].
  destruct (file_path_of d resource) as [p|]; [|done]. cbn [mbind py_bind].
  assert (Limits.severity_of limit (search severity_pattern block)
          = severity_of (search severity_pattern block)) as ->; [|done].
  destruct (search severity_pattern block) as [sm|] eqn:Hs; [|done].
  cbn [Limits.severity_of severity_of].
  destruct (group1 sm) as [t|] eqn:Hg; [|done].
  apply limits_int_within. by apply (Hlen sm).
Qed.

Lemma limits_for_each_within limit d m blocks : forall acc,
  Forall (fun block => forall sm t,
            search severity_pattern block = Some sm -> group1 sm = Some t ->
            (limit = 0 \/ length t <= limit)%nat) blocks ->
  for_each (Limits.loop_body limit d m) blocks acc
  = for_each (loop_body d m) blocks acc.
Proof.
  induction blocks as [|b blocks IH]; intros acc Hall; [done|].
  inversion Hall as [|? ? Hb Hrest]; subst. cbn [for_each].
  rewrite (limits_loop_body_within limit d m b acc Hb).
  destruct (loop_body d m b acc) as [acc'|]; [|done]. by apply IH.
Qed.

(** When [json.loads] fails with [JSONDecodeError] only, the loop over the
    lines returns if every line that is not blank is loaded, and is left
    with [JSONDecodeError] otherwise. *)
Lemma loads_lines (json_loads : text -> py unit) lines :
  (forall t e, json_loads t = Raise e -> e = JSONDecodeError) ->
  for_each (Limits.loads_line json_loads) lines tt
  = if forallb (fun line => match strip line with
                            | [] => true
                            | _ :: _ => returns (json_loads line)
                            end) lines
    then Return tt else Raise JSONDecodeError.
Proof.
  intros Honly. unfold Limits.loads_line.
  induction lines as [|line lines IH]; [done|].
  cbn [for_each forallb].
  destruct (strip line) as [|c rest]; [exact IH|].
  destruct (json_loads line) as [[]|e] eqn:Hline; [exact IH|].
  by rewrite (Honly _ _ Hline).
Qed.

Lemma limits_is_valid_json_within (json_loads : text -> py unit) content :
  (forall t e, json_loads t = Raise e -> e = JSONDecodeError) ->
  Limits.is_valid_json json_loads content
  = Return (is_valid_json (fun t => returns (json_loads t)) content).
Proof.
  intros Honly. unfold Limits.is_valid_json, is_valid_json.
  destruct (json_loads content) as [[]|e] eqn:H1; [done|].
  rewrite (Honly _ _ H1). cbn [mbind py_bind Limits.except_JSONDecodeError
                                 returns].
  destruct (json_loads (str "[" ++ content ++ str "]")) as [[]|e'] eqn:H2;
    [done|].
  rewrite (Honly _ _ H2). cbn [mbind py_bind Limits.except_JSONDecodeError
                                 returns].
  rewrite (loads_lines json_loads _ Honly).
  by destruct (forallb _ _).
Qed.

(** Where no limit is reached the two layers agree, and [process_file]
    returns: this is so when [json.loads] fails with [JSONDecodeError]
    only and no block has a severity of more digits than the limit. *)
Lemma process_file_within_limits limit (json_loads : text -> py unit)
    file_path content d m :
  (forall t e, json_loads t = Raise e -> e = JSONDecodeError) ->
  Forall (fun block => forall sm t,
            search severity_pattern block = Some sm -> group1 sm = Some t ->
            (limit = 0 \/ length t <= limit)%nat)
    (finditer pattern content) ->
  Limits.process_file limit json_loads file_path content d m
  = process_file (fun t => returns (json_loads t)) file_path content d m
  /\ exists results counts,
       snd (Limits.process_file limit json_loads file_path content d m)
       = Return (results, counts).
Proof.
  intros Honly Hall.
  assert (Limits.process_file limit json_loads file_path content d m
          = process_file (fun t => returns (json_loads t)) file_path content
              d m) as Heq.
  { unfold Limits.process_file, process_file.
    rewrite (limits_is_valid_json_within json_loads content Honly).
    by rewrite (limits_for_each_within limit d m _ _ Hall). }
  split; [exact Heq|]. rewrite Heq.
  destruct (for_each_loop d m (finditer pattern content) [] counts0
              total_is_sum_counts0) as (c & t & Hret & _).
  by eexists _, c.
Qed.

(** An input without a substring of the shape of a block reaches the
    loop with nothing to iterate on: if the validity check returns,
    [process_file] returns no line and the four counters at 0. *)
Lemma process_file_no_block limit (json_loads : text -> py unit)
    file_path content d m :
  (forall t e, json_loads t = Raise e -> e = JSONDecodeError) ->
  (forall pre b post g,
     content = pre ++ b ++ post -> ~ lang pattern None b g) ->
  snd (Limits.process_file limit json_loads file_path content d m)
  = Return ([], counts0).
Proof.
  intros Honly Hnone. unfold Limits.process_file.
  rewrite (limits_is_valid_json_within json_loads content Honly).
  cbn [snd]. by rewrite (finditer_none _ _ Hnone).
Qed.

(** A block with its two required fields and a severity of more digits
    than the limit: the iteration is left with [ValueError]. *)
Lemma limits_loop_body_over limit d m block acc t :
  is_Some (search resource_pattern block) ->
  is_Some (search message_pattern block) ->
  group1 <$> search severity_pattern block = Some (Some t) ->
  (0 < limit < length t)%nat ->
  Limits.loop_body limit d m block acc = Raise ValueError.
Proof.
  intros [rm Hr] [mm Hm] Hs Hlen. destruct acc as [results counts].
  destruct (search_sound _ _ _ Hr) as (_ & _ & _ & Hlr).
  apply resource_group in Hlr as (resource & Hgr & _).
  destruct (file_path_of_total d resource) as (p & Hp).
  unfold Limits.loop_body. rewrite Hr, Hm, Hgr. cbn [receiver mbind py_bind].
  rewrite Hp. cbn [mbind py_bind].
  destruct (search severity_pattern block) as [sm|]; [|done].
  cbn [fmap option_fmap option_map] in Hs. injection Hs as Hg.
  cbn [Limits.severity_of]. rewrite Hg. unfold Limits.int.
  destruct t as [|c t]; [simpl in Hlen; lia|].
  destruct (int_digits 0 (c :: t)); [|done].
  destruct (Nat.ltb_spec 0 limit); [|lia].
  destruct (Nat.ltb_spec limit (length (c :: t))); [done|lia].
Qed.

(** C9. The claim fails on the code as a default interpreter runs it.
    The input is a record with its two required fields and a severity of
    4301 digits, after a few words that are not JSON.  The block pattern
    finds the record.  Whatever [json.loads] does, [process_file] does not
    return: it raises.  When [json.loads] fails with [JSONDecodeError] on
    each text it is given, as it does on this input, the two lines of
    warning are printed and line 88 raises [ValueError].  With the limit
    switched off the same input gives one line.  And on any input, an
    exception of [json.loads] that is not [JSONDecodeError] leaves
    [process_file] from the validity check, before anything is printed or
    extracted: the check gates the extraction. *)
Theorem extraction_raises :
  finditer pattern long_severity_input = [long_severity_block]
  /\ (forall (json_loads : text -> py unit) (file_path : text) (d m : Z),
        exists e,
          snd (Limits.process_file default_max_str_digits json_loads
                 file_path long_severity_input d m)
          = Raise e)
  /\ (forall (file_path : text) (d m : Z),
        Limits.process_file default_max_str_digits
          (fun _ => Raise JSONDecodeError) file_path long_severity_input d m
        = ([ str "Warning: File " ++ file_path
               ++ str " doesn't appear to contain valid JSON";
             str "Processing anyway, but results may be incomplete." ],
           Raise ValueError))
  /\ (exists counts,
        snd (Limits.process_file 0 (fun _ => Raise JSONDecodeError) []
               long_severity_input 1 0)
        = Return ([str "ERROR [c.ts:?] : oops"], counts))
  /\ (forall (limit : nat) (json_loads : text -> py unit)
             (file_path content : text) (d m : Z) (e : exn),
        json_loads content = Raise e -> e <> JSONDecodeError ->
        Limits.process_file limit json_loads file_path content d m
        = ([], Raise e)).
Proof.
  assert (finditer pattern long_severity_input = [long_severity_block])
    as Hblocks by (vm_compute; reflexivity).
  assert (forall d m acc,
            Limits.loop_body default_max_str_digits d m long_severity_block
              acc = Raise ValueError) as Hbody.
  { intros d m acc.
    apply (limits_loop_body_over _ d m _ acc long_severity).
    - vm_compute. eauto.
    - vm_compute. eauto.
    - vm_compute. reflexivity.
    - vm_compute. lia. }
  split; [exact Hblocks|]. split; [|split; [|split]].
  - intros json_loads file_path d m. unfold Limits.process_file.
    destruct (Limits.is_valid_json json_loads long_severity_input)
      as [valid|e]; [|by exists e].
    exists ValueError. cbn [snd]. rewrite Hblocks. cbn [for_each].
    by rewrite Hbody.
  - intros file_path d m. unfold Limits.process_file.
    assert (Limits.is_valid_json (fun _ => Raise JSONDecodeError)
              long_severity_input = Return false) as ->
      by (vm_compute; reflexivity).
    rewrite Hblocks. cbn [for_each]. by rewrite Hbody.
  - eexists. vm_compute. reflexivity.
  - intros limit json_loads file_path content d m e He Hne.
    unfold Limits.process_file, Limits.is_valid_json. rewrite He.
    cbn [mbind py_bind]. unfold Limits.except_JSONDecodeError at 1.
    by destruct e.
Qed.

Lemma extraction_raises_witness :
  RecursionError <> JSONDecodeError
  /\ Limits.process_file default_max_str_digits
       (fun _ => Raise RecursionError) (str "in.json") open_brackets 1 0
     = ([], Raise RecursionError).
Proof.
  split; [discriminate|].
  apply (proj2 (proj2 (proj2 (proj2 extraction_raises)))
           default_max_str_digits (fun _ => Raise RecursionError)
           (str "in.json") open_brackets 1%Z 0%Z RecursionError);
    [reflexivity|discriminate].
Defined.

(** * Further properties of the extraction pass *)

(** ** Where a block ends *)

(** A lazy quantifier stops at the first position where the rest of the
    pattern matches. *)
Lemma rep_lazy_first {A : Type} cls s (k : text -> option A) x :
  rep_lazy cls s k = Some x ->
  exists t s',
    s = t ++ s' /\ Forall (fun c => cls c = true) t /\ k s' = Some x
    /\ forall t1 c t2, t = t1 ++ c :: t2 -> k (c :: t2 ++ s') = None.
Proof.
  induction s as [|c s IH]; simpl; intros H.
  - destruct (k []) eqn:Hk; [|discriminate]. injection H as ->.
    exists [], []. repeat (split; [done|]). by intros [|??] ???.
  - destruct (k (c :: s)) eqn:Hk.
    + injection H as ->. exists [], (c :: s). repeat (split; [done|]).
      by intros [|??] ???.
    + destruct (cls c) eqn:Hc; [|discriminate].
      destruct (IH H) as (t & s' & -> & Ht & Hk' & Hfirst).
      exists (c :: t), s'. split; [done|]. split; [by constructor|].
      split; [done|]. intros [|c1 t1] c2 t2 Heq; simplify_eq/=; eauto.
Qed.

Lemma take_all_but {A : Type} (pre post : list A) :
  take (length (pre ++ post) - length post) (pre ++ post) = pre.
Proof.
  rewrite length_app.
  replace (length pre + length post - length post)%nat with (length pre)
    by lia.
  by rewrite take_app_length.
Qed.

(** The text of a match of the block pattern: the opening brace, blanks,
    the key with its colon, one character, a run without closing brace,
    and the closing brace. *)
Lemma match_at_pattern_shape s m :
  match_at pattern s = Some m ->
  exists blanks c body,
    group0 m
    = str "{" ++ blanks ++ (quoted "resource" ++ str ":") ++ c :: body
      ++ [RBRACE]
    /\ Forall (fun c => isspace c = true) blanks
    /\ RBRACE ∉ body.
Proof.
  unfold match_at, pattern.
  remember (str "," ++ quoted "modelVersionId" ++ str ":") as mv eqn:Hmv.
  remember (Opt _ &> Lit (str "}")) as tail eqn:Htail.
  remember (str "{") as open eqn:Hopen.
  remember (quoted "resource" ++ str ":") as key eqn:Hkey.
  cbn [mtch]. intros Hm.
  destruct (strip_prefix open s) as [s0|] eqn:H0; [|discriminate].
  apply strip_prefix_Some in H0 as ->. cbn [rep_least] in Hm.
  apply rep_greedy_sound in Hm as (blanks & s1 & -> & Hblanks & Hm).
  destruct (strip_prefix key s1) as [s2|] eqn:H2; [|discriminate].
  apply strip_prefix_Some in H2 as ->.
  destruct s2 as [|c s2]; [discriminate|]. cbn [rep_least any_char] in Hm.
  apply rep_lazy_first in Hm as (body & s3 & -> & _ & Hm & Hfirst).
  assert (RBRACE ∉ body) as Hbody.
  { intros Hin. apply list_elem_of_split in Hin as (t1 & t2 & ->).
    specialize (Hfirst t1 RBRACE t2 eq_refl). subst tail mv.
    by vm_compute in Hfirst. }
  apply mtch_sound in Hm as (t & s4 & g & -> & Hl & Hk).
  injection Hk as <-. cbn [group0].
  replace (open ++ blanks ++ key ++ c :: body ++ t ++ s4)
    with ((open ++ blanks ++ key ++ c :: body ++ t) ++ s4)
    by (rewrite <- !app_assoc; cbn [app]; by rewrite <- !app_assoc).
  rewrite take_all_but.
  assert (t = [RBRACE]
          \/ exists v, t = mv ++ v ++ [RBRACE] /\ RBRACE ∉ v) as Ht.
  { subst tail. lang_inv; [right|by left].
    match goal with
    | H : Forall _ ?v |- _ => exists v; split; [by rewrite <- app_assoc|];
        intros Hin; rewrite Forall_forall in H; specialize (H _ Hin);
        by vm_compute in H
    end. }
  destruct Ht as [-> | (v & -> & Hv)].
  - by exists blanks, c, body.
  - exists blanks, c, (body ++ mv ++ v).
    split; [by rewrite <- !app_assoc|]. split; [done|].
    rewrite !elem_of_app. intros [?|[Hin|?]]; [done| |done].
    subst mv. vm_compute in Hin.
    repeat (apply elem_of_cons in Hin as [Hin|Hin]; [discriminate|]).
    by apply elem_of_nil in Hin.
Qed.

Lemma finditer_from_Forall (P : text -> Prop) r :
  (forall s m, match_at r s = Some m -> P (group0 m)) ->
  forall s skip, Forall P (finditer_from r skip s).
Proof.
  intros HP. induction s as [|c s IH]; intros [|n]; cbn [finditer_from];
    try constructor.
  - destruct (match_at r []) as [m|] eqn:Hm; [|constructor].
    constructor; [by apply (HP [])|constructor].
  - destruct (match_at r (c :: s)) as [m|] eqn:Hm; [|apply IH].
    constructor; [by apply (HP (c :: s))|apply IH].
  - apply IH.
Qed.

(** X1. Every block that the scan hands to the loop is an opening brace,
    blanks, the key resource with its colon, one character, and then text
    up to the first closing brace: the block holds no closing brace
    between that character and its last character, so whatever follows
    a closing brace in a record is not part of the block. *)
Theorem block_ends_at_first_brace (content : text) :
  Forall
    (fun block =>
       exists blanks c body,
         block
         = str "{" ++ blanks ++ (quoted "resource" ++ str ":") ++ c :: body
           ++ [RBRACE]
         /\ Forall (fun c => isspace c = true) blanks
         /\ RBRACE ∉ body)
    (finditer pattern content).
Proof.
  apply finditer_from_Forall. intros s m. apply match_at_pattern_shape.
Qed.

(** ** Blank input *)

Lemma lstrip_blank s : Forall (fun c => isspace c = true) s -> lstrip s = [].
Proof.
  induction 1 as [|c s Hc _ IH]; simpl; [done|]. by rewrite Hc.
Qed.

Lemma finditer_no_brace r s :
  (forall t g, lang r None t g -> exists t', t = 123 :: t') ->
  123 ∉ s -> finditer r s = [].
Proof.
  intros Hbrace Hs. apply finditer_none. intros pre b post g -> Hl.
  apply Hbrace in Hl as (b' & ->). apply Hs.
  apply elem_of_app. right. by left.
Qed.

(** X2. On an empty input, or one made of blanks and line breaks only,
    the validity check succeeds whatever [json.loads] says, so no warning
    is printed, and [process_file] returns no line and the four counters
    at 0. *)
Theorem blank_input (json_loads : text -> bool) (file_path content : text)
    (d m : Z) :
  Forall (fun c => isspace c = true) content ->
  is_valid_json json_loads content = true
  /\ process_file json_loads file_path content d m
     = ([], Return ([], counts0)).
Proof.
  intros Hblank.
  assert (is_valid_json json_loads content = true) as Hvalid.
  { unfold is_valid_json. destruct (json_loads content); [done|].
    destruct (json_loads _); [done|].
    unfold strip. by rewrite (lstrip_blank _ Hblank). }
  split; [done|]. unfold process_file. rewrite Hvalid.
  rewrite (finditer_no_brace pattern content); [done|apply pattern_brace|].
  intros Hin. rewrite Forall_forall in Hblank.
  specialize (Hblank _ Hin). by vm_compute in Hblank.
Qed.

Lemma blank_input_witness :
  Forall (fun c => isspace c = true) [32; LF; 9; LF]
  /\ is_valid_json (fun _ => false) [32; LF; 9; LF] = true
  /\ process_file (fun _ => false) (str "in.json") [32; LF; 9; LF] 1 0
     = ([], Return ([], counts0)).
Proof.
  assert (Forall (fun c => isspace c = true) [32; LF; 9; LF]) as H
    by (repeat constructor).
  split; [exact H|].
  apply (blank_input (fun _ => false) (str "in.json") _ 1 0 H).
Defined.

(** ** The path shown *)

Lemma join_app sep (front kept : list text) :
  front <> [] -> kept <> [] ->
  join sep (front ++ kept) = join sep front ++ sep ++ join sep kept.
Proof.
  intros Hf Hk. induction front as [|p front IH]; [done|].
  destruct front as [|q front].
  - simpl. by destruct kept.
  - change ((p :: q :: front) ++ kept) with (p :: (q :: front) ++ kept).
    change (join sep (p :: (q :: front) ++ kept))
      with (p ++ sep ++ join sep ((q :: front) ++ kept)).
    rewrite IH by done.
    change (join sep (p :: q :: front))
      with (p ++ sep ++ join sep (q :: front)).
    by rewrite <- !app_assoc.
Qed.

Lemma join_suffix sep (front kept : list text) :
  kept <> [] -> join sep kept `suffix_of` join sep (front ++ kept).
Proof.
  intros Hk. destruct front as [|p front]; [done|].
  rewrite join_app by done. rewrite app_assoc. by eexists.
Qed.

Lemma occurrences_app c s1 s2 :
  occurrences c (s1 ++ s2) = (occurrences c s1 + occurrences c s2)%nat.
Proof. unfold occurrences. by rewrite List.filter_app, length_app. Qed.

Lemma occurrences_none c s : c ∉ s -> occurrences c s = 0%nat.
Proof.
  unfold occurrences. induction s as [|a s IH]; [done|].
  rewrite not_elem_of_cons. intros [Hne Hs]. simpl.
  destruct (N.eqb_spec c a); [done|]. by apply IH.
Qed.

Lemma occurrences_join sep (parts : list text) :
  Forall (fun part => sep ∉ part) parts ->
  occurrences sep (join [sep] parts) = (length parts - 1)%nat.
Proof.
  induction 1 as [|p parts Hp Hparts IH]; [done|].
  destruct parts as [|q parts].
  - simpl. by rewrite occurrences_none.
  - change (join [sep] (p :: q :: parts))
      with (p ++ [sep] ++ join [sep] (q :: parts)).
    rewrite !occurrences_app, IH, occurrences_none by done.
    unfold occurrences. simpl. rewrite N.eqb_refl. simpl. lia.
Qed.

Lemma file_path_of_shape (d : Z) (resource p : text) :
  file_path_of d resource = Return p ->
  (p `suffix_of` normalized resource)
  /\ (BACKSLASH ∉ p)
  /\ (Z.of_nat (occurrences SLASH p) <= Z.max d 1 - 1)%Z.
Proof.
  intros Hp.
  assert (path_parts resource = split SLASH (normalized resource)) as Hparts
    by (unfold path_parts; by rewrite replace_char).
  assert (exists front kept,
            path_parts resource = front ++ kept /\ kept <> []
            /\ p = join [SLASH] kept
            /\ (Z.of_nat (length kept) <= Z.max d 1)%Z)
    as (front & kept & Hsplit & Hkept & -> & Hlen).
  { unfold file_path_of in Hp.
    destruct (Z.gtb_spec d 0) as [Hd|Hd];
      [destruct (Z.gtb_spec (Z.of_nat (length (path_parts resource))) d)
         as [Hl|Hl]|]; cbn [andb] in Hp.
    - injection Hp as <-.
      destruct (slice_last_split (Z.to_nat d) (path_parts resource))
        as (front & Hsplit & Hk); [lia|].
      exists front, (slice_last (Z.to_nat d) (path_parts resource)).
      split; [done|]. split; [intros Hnil; rewrite Hnil in Hk; simpl in Hk; lia|].
      split; [done|lia].
    - unfold subscript_last in Hp.
      destruct (last (path_parts resource)) as [base|] eqn:Hlast;
        [|discriminate].
      injection Hp as <-. apply last_split in Hlast as (front & Hsplit).
      exists front, [base]. repeat (split; [done|]). simpl. lia.
    - unfold subscript_last in Hp.
      destruct (last (path_parts resource)) as [base|] eqn:Hlast;
        [|discriminate].
      injection Hp as <-. apply last_split in Hlast as (front & Hsplit).
      exists front, [base]. repeat (split; [done|]). simpl. lia. }
  assert (join [SLASH] kept `suffix_of` normalized resource) as Hsuffix.
  { rewrite <- (join_split SLASH (normalized resource)), <- Hparts, Hsplit.
    by apply join_suffix. }
  split; [done|]. split.
  - intros Hin. destruct Hsuffix as (k & Hk).
    assert (BACKSLASH ∈ normalized resource) as Hin'
      by (rewrite Hk; apply elem_of_app; by right).
    unfold normalized in Hin'. apply list_elem_of_In, in_map_iff in Hin'.
    destruct Hin' as (c & Hc & _). by destruct (N.eqb_spec c BACKSLASH).
  - rewrite occurrences_join; [lia|].
    pose proof (split_no_sep SLASH (normalized resource)) as Hno.
    rewrite <- Hparts, Hsplit in Hno. by apply Forall_app in Hno as [_ ?].
Qed.

(** X3. The path shown for a resource is a suffix of the resource with
    its backslashes written as slashes; it holds no backslash, and it
    holds fewer slashes than the depth, none at all when the depth is 1 or
    less. *)
Theorem shown_path (d : Z) (resource p : text) :
  file_path_of d resource = Return p ->
  (p `suffix_of` normalized resource)
  /\ (BACKSLASH ∉ p)
  /\ (Z.of_nat (occurrences SLASH p) <= Z.max d 1 - 1)%Z.
Proof. apply file_path_of_shape. Qed.

Lemma shown_path_witness :
  file_path_of 3 (str "C:\proj\src\app\main.ts")
  = Return (str "src/app/main.ts")
  /\ (str "src/app/main.ts"
        `suffix_of` normalized (str "C:\proj\src\app\main.ts"))
  /\ (BACKSLASH ∉ str "src/app/main.ts")
  /\ (Z.of_nat (occurrences SLASH (str "src/app/main.ts")) <= Z.max 3 1 - 1)%Z.
Proof.
  assert (file_path_of 3 (str "C:\proj\src\app\main.ts")
          = Return (str "src/app/main.ts")) as H by (vm_compute; reflexivity).
  split; [exact H|]. apply (shown_path 3 _ _ H).
Defined.

(** ** What a block emits, for every threshold *)





(** ** The counter of each category *)





(** ** The threshold *)









(** ** The parts of a line *)

Lemma none_of_not_elem l v c :
  Forall (fun c => none_of l c = true) v -> c ∈ l -> c ∉ v.
Proof.
  intros Hv Hc Hin. rewrite Forall_forall in Hv. specialize (Hv _ Hin).
  unfold none_of in Hv. apply negb_true_iff in Hv.
  assert (existsb (N.eqb c) l = true) as Hex; [|congruence].
  apply existsb_exists. exists c. split; [by apply list_elem_of_In|].
  apply N.eqb_refl.
Qed.







(** ** More on the message cleanup *)

Lemma cleanup_spec_head b l :
  exists x tl,
    cleanup_spec (b :: l) = x :: tl /\ (x = b \/ x = BACKTICK \/ x = 32).
Proof.
  destruct l as [|c l]; [by exists b, []; auto|].
  rewrite cleanup_spec_cons.
  destruct (_ && _); [eexists _, _; eauto|].
  destruct (_ && _); eexists _, _; eauto.
Qed.

Lemma contains_cons_ne p a s :
  strip_prefix p (a :: s) = None -> contains p (a :: s) = contains p s.
Proof. intros H. simpl. by rewrite H. Qed.

Lemma cleanup_no_escaped_newline message :
  has_escaped_newline (cleanup message) = false.
Proof.
  unfold has_escaped_newline. change (str "n") with [110].
  rewrite cleanup_is_spec.
  induction message as [|a|a b l IH1 IH2] using list_ind2; [done| |].
  - cbn [cleanup_spec contains strip_prefix].
    by destruct (BACKSLASH =? a).
  - rewrite cleanup_spec_cons.
    destruct (N.eqb_spec a BACKSLASH) as [->|Ha]; cbn [andb].
    + destruct (N.eqb_spec b BACKTICK) as [->|Hb1];
        [by rewrite contains_cons_ne|].
      destruct (N.eqb_spec b 110) as [->|Hb2];
        [by rewrite contains_cons_ne|].
      rewrite contains_cons_ne; [done|].
      destruct (cleanup_spec_head b l) as (x & tl & -> & Hx).
      cbn [strip_prefix]. rewrite N.eqb_refl.
      destruct (N.eqb_spec 110 x) as [<-|]; [|done].
      by destruct Hx as [?|[?|?]].
    + rewrite contains_cons_ne; [done|].
      cbn [strip_prefix]. by destruct (N.eqb_spec BACKSLASH a).
Qed.

Lemma cleanup_plain message : BACKSLASH ∉ message -> cleanup message = message.
Proof.
  rewrite cleanup_is_spec.
  induction message as [|a|a b l IH1 IH2] using list_ind2; [done..|].
  rewrite not_elem_of_cons. intros [Ha Hrest].
  rewrite cleanup_spec_cons.
  destruct (N.eqb_spec a BACKSLASH); [congruence|]. cbn [andb].
  by rewrite IH2.
Qed.

Lemma cleanup_length message :
  (length (cleanup message) <= length message)%nat.
Proof.
  rewrite cleanup_is_spec.
  induction message as [|a|a b l IH1 IH2] using list_ind2; [done..|].
  rewrite cleanup_spec_cons.
  destruct (_ && _); [simpl; lia|]. destruct (_ && _); simpl in *; lia.
Qed.

(** X9. The cleaned message holds no backslash-n pair and is never longer
    than the extracted message; a message without a backslash is left as
    it is. *)
Theorem cleanup_result (message : text) :
  has_escaped_newline (cleanup message) = false
  /\ (length (cleanup message) <= length message)%nat
  /\ (BACKSLASH ∉ message -> cleanup message = message).
Proof.
  split; [apply cleanup_no_escaped_newline|].
  split; [apply cleanup_length|apply cleanup_plain].
Qed.

Lemma cleanup_result_witness :
  (BACKSLASH ∉ str "Cannot find name 'x'.")
  /\ cleanup (str "Cannot find name 'x'.") = str "Cannot find name 'x'.".
Proof.
  assert (BACKSLASH ∉ str "Cannot find name 'x'.") as H.
  { intros Hin. vm_compute in Hin.
    repeat (apply elem_of_cons in Hin as [Hin|Hin]; [discriminate|]).
    by apply elem_of_nil in Hin. }
  split; [exact H|].
  apply (proj2 (proj2 (cleanup_result (str "Cannot find name 'x'.")))). exact H.
Defined.

(** * [colorize] *)

Lemma strip_prefix_app p s : strip_prefix p (p ++ s) = Some s.
Proof. induction p as [|a p IH]; simpl; [done|]. by rewrite N.eqb_refl. Qed.


Lemma contains_prefix p s : contains p (p ++ s) = true.
Proof. destruct p, s; simpl; by rewrite ?N.eqb_refl, ?strip_prefix_app. Qed.




(** X11. The colour follows the first of the words ERROR, WARNING, INFO
    found anywhere in the line, not the category: a line of category
    WARNING is red when ERROR occurs in what follows its bracket and
    yellow otherwise, and a line of category INFO is red when ERROR
    occurs there, else yellow when WARNING occurs there, else cyan. *)
Theorem colour_is_by_first_word (RED YELLOW CYAN RESET rest : text) :
  colorize RED YELLOW CYAN RESET true (str "WARNING [" ++ rest)
  = (if contains (str "ERROR") rest then RED else YELLOW)
    ++ (str "WARNING [" ++ rest) ++ RESET
  /\ colorize RED YELLOW CYAN RESET true (str "INFO [" ++ rest)
     = (if contains (str "ERROR") rest then RED
        else if contains (str "WARNING") rest then YELLOW else CYAN)
       ++ (str "INFO [" ++ rest) ++ RESET.
Proof.
  unfold colorize. cbn [negb].
  assert (contains (str "ERROR") (str "WARNING [" ++ rest)
          = contains (str "ERROR") rest) as -> by reflexivity.
  assert (contains (str "ERROR") (str "INFO [" ++ rest)
          = contains (str "ERROR") rest) as -> by reflexivity.
  assert (contains (str "WARNING") (str "INFO [" ++ rest)
          = contains (str "WARNING") rest) as -> by reflexivity.
  assert (contains (str "WARNING") (str "WARNING [" ++ rest) = true) as Hw
    by apply (contains_prefix (str "WARNING") (str " [" ++ rest)).
  assert (contains (str "INFO") (str "INFO [" ++ rest) = true) as Hi
    by apply (contains_prefix (str "INFO") (str " [" ++ rest)).
  split.
  - destruct (contains (str "ERROR") rest); [done|]. by rewrite Hw.
  - destruct (contains (str "ERROR") rest); [done|].
    destruct (contains (str "WARNING") rest); [done|]. by rewrite Hi.
Qed.

(** * [get_unique_filename] *)

Lemma rep_greedy_fallback {A : Type} cls s (k : text -> option A) :
  is_Some (k s) -> is_Some (rep_greedy cls s k).
Proof.
  intros Hk. destruct s as [|c s]; simpl; [done|].
  destruct (cls c); [|done]. by destruct (rep_greedy cls s k).
Qed.

Lemma rep_greedy_complete {A : Type} cls t s (k : text -> option A) :
  Forall (fun c => cls c = true) t -> is_Some (k s) ->
  is_Some (rep_greedy cls (t ++ s) k).
Proof.
  induction 1 as [|c t Hc _ IH]; intros Hk; [by apply rep_greedy_fallback|].
  simpl. rewrite Hc. specialize (IH Hk).
  by destruct (rep_greedy cls (t ++ s) k).
Qed.

Lemma rep_lazy_complete {A : Type} cls t s (k : text -> option A) :
  Forall (fun c => cls c = true) t -> is_Some (k s) ->
  is_Some (rep_lazy cls (t ++ s) k).
Proof.
  induction 1 as [|c t Hc _ IH]; intros Hk.
  - destruct s; simpl; by destruct Hk as [? ->].
  - specialize (IH Hk). simpl. destruct (k (c :: t ++ s)); [done|].
    by rewrite Hc.
Qed.

(** A match of the number pattern: a prefix without line feed, a run of
    decimal digits, and nothing more than a line feed after it. *)
Lemma number_match whole s g :
  gmtch whole number_pattern s (fun _ => None) (fun _ g => Some g) = Some g ->
  length s = length whole
  /\ exists p ds tail,
       s = p ++ ds ++ tail /\ g 1%nat = Some p /\ g 2%nat = Some ds
       /\ (LF ∉ p) /\ ds <> [] /\ Forall (fun c => isdecimal c = true) ds
       /\ (tail = [] \/ tail = [LF])
       /\ forall p1 c p2, p = p1 ++ c :: p2 ->
            ~ (exists ds' tail',
                 c :: p2 ++ ds ++ tail = ds' ++ tail' /\ ds' <> []
                 /\ Forall (fun c => isdecimal c = true) ds'
                 /\ (tail' = [] \/ tail' = [LF])).
Proof.
  unfold number_pattern. cbn [gmtch]. intros H.
  destruct (Nat.eqb_spec (length s) (length whole)) as [Hlen|]; [|discriminate].
  split; [done|]. cbn [rep_least] in H.
  apply rep_lazy_first in H as (p & s2 & -> & Hp & H & Hfirst).
  rewrite take_all_but in H.
  destruct s2 as [|c s2]; [discriminate|].
  destruct (isdecimal c) eqn:Hc; [|discriminate].
  apply rep_greedy_sound in H as (t & s3 & -> & Ht & H).
  change (c :: t ++ s3) with ((c :: t) ++ s3) in H. rewrite take_all_but in H.
  assert ((s3 = [] \/ s3 = [LF])
          /\ g = set_group 2 (c :: t) (set_group 1 p (fun _ => None)))
    as [Htail ->].
  { destruct s3 as [|c3 [|c4 s3]]; [|destruct (N.eqb_spec c3 LF) as [->|]|];
      try discriminate; injection H as <-; auto. }
  exists p, (c :: t), s3. repeat (split; [done|]).
  split; [eapply none_of_not_elem; [exact Hp|by left]|].
  split; [done|]. split; [by constructor|]. split; [done|].
  intros p1 c1 p2 -> (ds' & tail' & Heq & Hne & Hds' & Htail').
  specialize (Hfirst p1 c1 p2 eq_refl).
  destruct ds' as [|x ds']; [done|].
  inversion Hds' as [|? ? Hx Hds'']; subst.
  cbn [app] in Heq. injection Heq as -> Heq.
  rewrite Hx, Heq in Hfirst.
  match type of Hfirst with
  | rep_greedy ?cls _ ?k = None =>
      destruct (rep_greedy_complete cls ds' tail' k Hds'') as [? Hsome];
        [|congruence]
  end.
  by destruct Htail' as [-> | ->].
Qed.

Lemma gsearch_from_sound whole r s g :
  gsearch_from whole r s = Some g ->
  exists s',
    s' `suffix_of` s
    /\ gmtch whole r s' (fun _ => None) (fun _ g => Some g) = Some g.
Proof.
  induction s as [|c s IH]; simpl; intros H.
  - destruct (gmtch whole r [] _ _) eqn:Hm; [|discriminate].
    injection H as ->. by exists [].
  - destruct (gmtch whole r (c :: s) _ _) eqn:Hm.
    + injection H as ->. by exists (c :: s).
    + destruct (IH H) as (s' & Hs & Hm'). exists s'.
      split; [by apply suffix_cons_r|done].
Qed.

(** The groups of a successful search of the number pattern. *)
Lemma gsearch_number name g :
  gsearch number_pattern name = Some g ->
  exists p ds tail,
    name = p ++ ds ++ tail /\ g 1%nat = Some p /\ g 2%nat = Some ds
    /\ (LF ∉ p) /\ ds <> [] /\ Forall (fun c => isdecimal c = true) ds
    /\ (tail = [] \/ tail = [LF])
    /\ forall p1 c p2, p = p1 ++ c :: p2 ->
         ~ (exists ds' tail',
              c :: p2 ++ ds ++ tail = ds' ++ tail' /\ ds' <> []
              /\ Forall (fun c => isdecimal c = true) ds'
              /\ (tail' = [] \/ tail' = [LF])).
Proof.
  intros H. apply gsearch_from_sound in H as (s' & Hsuffix & Hm).
  apply number_match in Hm as (Hlen & Hrest).
  assert (s' = name) as <-; [|done].
  apply suffix_length_eq; [done|lia].
Qed.

(** The name and the counter are always obtained: [int] does not raise on
    the digits of the pattern. *)
Lemma name_base_and_counter_total name :
  exists name_base counter,
    name_base_and_counter name = Return (name_base, counter)
    /\ (0 <= counter)%Z.
Proof.
  unfold name_base_and_counter.
  destruct (gsearch number_pattern name) as [g|] eqn:Hg;
    [|by exists name, 0%Z].
  apply gsearch_number in Hg
    as (p & ds & tail & _ & -> & -> & _ & Hne & Hds & _).
  destruct (int_total ds Hne Hds) as (z & -> & Hz).
  by exists p, z.
Qed.

Lemma unique_loop_free pe jp fuel directory name_base extension :
  forall counter p,
    unique_loop pe jp fuel directory name_base extension counter = Some p ->
    pe p = false.
Proof.
  induction fuel as [|fuel IH]; intros counter p; simpl; [done|].
  destruct (pe (new_path jp directory name_base extension (counter + 1)))
    eqn:Hpe; simpl.
  - apply IH.
  - by intros [= <-].
Qed.

Lemma unique_loop_first pe jp directory name_base extension (k : nat) :
  forall fuel counter,
    (1 <= k <= fuel)%nat ->
    (forall j : nat, (1 <= j < k)%nat ->
       pe (new_path jp directory name_base extension
             (counter + Z.of_nat j)) = true) ->
    pe (new_path jp directory name_base extension (counter + Z.of_nat k))
    = false ->
    unique_loop pe jp fuel directory name_base extension counter
    = Some (new_path jp directory name_base extension (counter + Z.of_nat k)).
Proof.
  induction k as [|k IH]; intros fuel counter Hk Hbusy Hfree; [lia|].
  destruct fuel as [|fuel]; [lia|]. cbn [unique_loop].
  destruct (decide (k = 0%nat)) as [->|Hk0].
  - change (Z.of_nat 1) with 1%Z in Hfree. by rewrite Hfree.
  - assert (1 <= 1 < S k)%nat as H1 by lia. apply Hbusy in H1.
    change (Z.of_nat 1) with 1%Z in H1. rewrite H1. cbn [negb].
    replace (counter + Z.of_nat (S k))%Z with (counter + 1 + Z.of_nat k)%Z
      in * by lia.
    apply IH; [lia| |done].
    intros j Hj. specialize (Hbusy (S j)).
    replace (counter + 1 + Z.of_nat j)%Z with (counter + Z.of_nat (S j))%Z
      by lia.
    apply Hbusy. lia.
Qed.

(** X12. A name that is free is returned as it is.  Whatever the file
    system, a path that [get_unique_filename] returns does not exist, and
    the function raises nothing: the digits the pattern hands to [int]
    are always a number. *)
Theorem unique_name_is_free (path_exists : text -> bool)
    (parent path_name : text -> text) (splitext : text -> text * text)
    (joinpath : text -> text -> text) (fuel : nat) (base_filename : text) :
  (path_exists base_filename = false ->
   get_unique_filename path_exists parent path_name splitext joinpath fuel
     base_filename = Some (Return base_filename))
  /\ (forall p,
        get_unique_filename path_exists parent path_name splitext joinpath
          fuel base_filename = Some (Return p) ->
        path_exists p = false)
  /\ (forall e,
        get_unique_filename path_exists parent path_name splitext joinpath
          fuel base_filename <> Some (Raise e)).
Proof.
  unfold get_unique_filename.
  destruct (path_exists base_filename) eqn:Hbase; cbn [negb].
  - split; [done|].
    destruct (splitext (path_name base_filename)) as [name extension].
    destruct (name_base_and_counter_total name) as (nb & c & -> & _).
    destruct (unique_loop _ _ _ _ _ _ _) as [q|] eqn:Hloop; [|done].
    split; [|done]. intros p [= <-]. by apply unique_loop_free in Hloop.
  - split; [done|]. split; [|done]. by intros p [= <-].
Qed.

(** A file system with out.txt and out1.txt, names without directory. *)
Lemma unique_name_is_free_witness :
  let path_exists :=
    fun p : text => bool_decide (p ∈ [str "out.txt"; str "out1.txt"]) in
  let splitext :=
    fun n : text => (take (length n - 4) n, drop (length n - 4) n) in
  path_exists (str "new.txt") = false
  /\ get_unique_filename path_exists (fun _ => []) (fun p => p) splitext
       (fun _ f => f) 5 (str "new.txt") = Some (Return (str "new.txt"))
  /\ get_unique_filename path_exists (fun _ => []) (fun p => p) splitext
       (fun _ f => f) 5 (str "out.txt") = Some (Return (str "out2.txt"))
  /\ path_exists (str "out2.txt") = false.
Proof.
  intros path_exists splitext.
  assert (path_exists (str "new.txt") = false) as Hfree
    by (vm_compute; reflexivity).
  assert (get_unique_filename path_exists (fun _ => []) (fun p => p) splitext
            (fun _ f => f) 5 (str "out.txt") = Some (Return (str "out2.txt")))
    as Hout by (vm_compute; reflexivity).
  split; [exact Hfree|]. split.
  - apply (proj1 (unique_name_is_free path_exists (fun _ => []) (fun p => p)
                    splitext (fun _ f => f) 5 (str "new.txt")) Hfree).
  - split; [exact Hout|].
    apply (proj1 (proj2 (unique_name_is_free path_exists (fun _ => [])
                           (fun p => p) splitext (fun _ f => f) 5
                           (str "out.txt"))) _ Hout).
Defined.

(** X13. When the name is taken, the path returned is the one numbered
    with the first free number above the counter of the name: if the
    paths numbered counter+1 to counter+k-1 exist and the path numbered
    counter+k does not, that path is returned, as soon as [k] iterations
    are allowed. *)
Theorem first_free_number (path_exists : text -> bool)
    (parent path_name : text -> text) (splitext : text -> text * text)
    (joinpath : text -> text -> text) (base_filename : text) :
  path_exists base_filename = true ->
  exists name_base counter,
    name_base_and_counter (fst (splitext (path_name base_filename)))
    = Return (name_base, counter)
    /\ (0 <= counter)%Z
    /\ forall k fuel : nat,
         (1 <= k <= fuel)%nat ->
         (forall j : nat, (1 <= j < k)%nat ->
            path_exists
              (new_path joinpath (parent base_filename) name_base
                 (snd (splitext (path_name base_filename)))
                 (counter + Z.of_nat j)) = true) ->
         path_exists
           (new_path joinpath (parent base_filename) name_base
              (snd (splitext (path_name base_filename)))
              (counter + Z.of_nat k)) = false ->
         get_unique_filename path_exists parent path_name splitext joinpath
           fuel base_filename
         = Some (Return
                   (new_path joinpath (parent base_filename) name_base
                      (snd (splitext (path_name base_filename)))
                      (counter + Z.of_nat k))).
Proof.
  intros Hbase. unfold get_unique_filename. rewrite Hbase. cbn [negb].
  destruct (splitext (path_name base_filename)) as [name extension].
  cbn [fst snd].
  destruct (name_base_and_counter_total name) as (nb & c & Hstart & Hc).
  exists nb, c. split; [done|]. split; [done|].
  intros k fuel Hk Hbusy Hfree. rewrite Hstart.
  by rewrite (unique_loop_first path_exists joinpath _ _ _ k fuel c Hk Hbusy
                Hfree).
Qed.

Lemma first_free_number_witness :
  let path_exists :=
    fun p : text =>
      bool_decide (p ∈ [str "log7.txt"; str "log8.txt"; str "log9.txt"]) in
  let splitext :=
    fun n : text => (take (length n - 4) n, drop (length n - 4) n) in
  path_exists (str "log7.txt") = true
  /\ exists name_base counter,
       name_base_and_counter (fst (splitext (str "log7.txt")))
       = Return (name_base, counter)
       /\ (0 <= counter)%Z
       /\ forall k fuel : nat,
            (1 <= k <= fuel)%nat ->
            (forall j : nat, (1 <= j < k)%nat ->
               path_exists
                 (new_path (fun _ f => f) [] name_base
                    (snd (splitext (str "log7.txt")))
                    (counter + Z.of_nat j)) = true) ->
            path_exists
              (new_path (fun _ f => f) [] name_base
                 (snd (splitext (str "log7.txt")))
                 (counter + Z.of_nat k)) = false ->
            get_unique_filename path_exists (fun _ => []) (fun p => p)
              splitext (fun _ f => f) fuel (str "log7.txt")
            = Some (Return
                      (new_path (fun _ f => f) [] name_base
                         (snd (splitext (str "log7.txt")))
                         (counter + Z.of_nat k))).
Proof.
  intros path_exists splitext.
  assert (path_exists (str "log7.txt") = true) as H
    by (vm_compute; reflexivity).
  split; [exact H|].
  apply (first_free_number path_exists (fun _ => []) (fun p => p) splitext
           (fun _ f => f) (str "log7.txt") H).
Defined.

Lemma gsearch_from_first whole r s :
  is_Some (gmtch whole r s (fun _ => None) (fun _ g => Some g)) ->
  gsearch_from whole r s
  = gmtch whole r s (fun _ => None) (fun _ g => Some g).
Proof. intros [g Hg]. destruct s; simpl; by rewrite Hg. Qed.

Lemma not_elem_none_of c v :
  c ∉ v -> Forall (fun x => none_of [c] x = true) v.
Proof.
  intros Hc. apply Forall_forall. intros x Hx. unfold none_of. simpl.
  destruct (N.eqb_spec x c) as [->|]; done.
Qed.

Lemma number_pattern_matches stem digits :
  LF ∉ stem -> digits <> [] ->
  Forall (fun c => isdecimal c = true) digits ->
  is_Some (gmtch (stem ++ digits) number_pattern (stem ++ digits)
             (fun _ => None) (fun _ g => Some g)).
Proof.
  intros Hstem Hne Hdigits. unfold number_pattern. cbn [gmtch].
  rewrite Nat.eqb_refl. cbn [rep_least].
  apply rep_lazy_complete; [by apply not_elem_none_of|].
  destruct digits as [|x ds]; [done|].
  inversion Hdigits as [|? ? Hx Hds]; subst. rewrite Hx.
  rewrite <- (app_nil_r ds) at 1. by apply rep_greedy_complete.
Qed.

(** X14. The numbering starts from the number the name ends with: for a
    name made of a stem without line feed that does not end with a digit,
    followed by decimal digits, the name base is the stem and the counter
    is the number the digits write; for a name that ends with neither a
    digit nor a line feed, the name base is the name and the counter
    is 0. *)
Theorem numbering_start :
  (forall stem digits,
     LF ∉ stem ->
     (forall c, last stem = Some c -> isdecimal c = false) ->
     digits <> [] -> Forall (fun c => isdecimal c = true) digits ->
     exists n,
       int (Some digits) = Return n
       /\ name_base_and_counter (stem ++ digits) = Return (stem, n))
  /\ (forall name,
        (forall c, last name = Some c -> isdecimal c = false /\ c <> LF) ->
        name_base_and_counter name = Return (name, 0%Z)).
Proof.
  split.
  - intros stem digits Hstem Hlast Hne Hdigits.
    destruct (int_total digits Hne Hdigits) as (n & Hint & _).
    exists n. split; [done|]. unfold name_base_and_counter, gsearch.
    pose proof (number_pattern_matches stem digits Hstem Hne Hdigits)
      as Hsome.
    rewrite (gsearch_from_first _ _ _ Hsome). destruct Hsome as [g Hg].
    rewrite Hg.
    assert (gsearch number_pattern (stem ++ digits) = Some g) as Hsearch.
    { unfold gsearch. rewrite gsearch_from_first by eauto. done. }
    apply gsearch_number in Hsearch
      as (p & ds & tail & Heq & Hg1 & Hg2 & _ & Hdne & Hds & Htail & Hmin).
    assert (tail = []) as ->.
    { destruct Htail as [->| ->]; [done|]. exfalso.
      assert (last (stem ++ digits) = Some LF) as Hl.
      { rewrite Heq, !last_app. done. }
      rewrite last_app in Hl.
      destruct (last digits) as [c|] eqn:Hc;
        [|by apply last_None in Hc].
      injection Hl as ->. apply last_Some_elem_of in Hc.
      rewrite Forall_forall in Hdigits. specialize (Hdigits _ Hc).
      by vm_compute in Hdigits. }
    rewrite app_nil_r in Heq.
    assert (p = stem /\ ds = digits) as [-> ->].
    { apply app_eq_inv in Heq as [(k & -> & ->) | (k & -> & ->)].
      - destruct k as [|c k] using rev_ind;
          [by rewrite app_nil_r|]. exfalso.
        assert (isdecimal c = false) as Hc.
        { apply Hlast. by rewrite app_assoc, last_snoc. }
        rewrite Forall_forall in Hds.
        rewrite (Hds c) in Hc; [done|].
        apply elem_of_app. left. apply elem_of_app. right. by left.
      - destruct k as [|c k]; [by rewrite app_nil_r|]. exfalso.
        apply (Hmin stem c k eq_refl).
        exists (c :: k ++ ds), []. rewrite !app_nil_r.
        repeat (split; [done|]). by left. }
    rewrite Hg1, Hg2, Hint. done.
  - intros name Hlast. unfold name_base_and_counter.
    destruct (gsearch number_pattern name) as [g|] eqn:Hg; [|done].
    exfalso. apply gsearch_number in Hg
      as (p & ds & tail & -> & _ & _ & _ & Hdne & Hds & Htail & _).
    destruct Htail as [-> | ->].
    + rewrite app_nil_r in Hlast.
      destruct (last ds) as [c|] eqn:Hc; [|by apply last_None in Hc].
      destruct (Hlast c) as [Hno _]; [by rewrite last_app, Hc|].
      apply last_Some_elem_of in Hc. rewrite Forall_forall in Hds.
      by rewrite (Hds c Hc) in Hno.
    + destruct (Hlast LF) as [_ Hno]; [by rewrite !last_app|]. done.
Qed.

Lemma numbering_start_witness :
  (LF ∉ str "report")
  /\ (forall c, last (str "report") = Some c -> isdecimal c = false)
  /\ str "007" <> []
  /\ Forall (fun c => isdecimal c = true) (str "007")
  /\ (exists n,
        int (Some (str "007")) = Return n
        /\ name_base_and_counter (str "report" ++ str "007")
           = Return (str "report", n))
  /\ (forall c, last (str "notes") = Some c -> isdecimal c = false /\ c <> LF)
  /\ name_base_and_counter (str "notes") = Return (str "notes", 0%Z).
Proof.
  assert (LF ∉ str "report") as H1.
  { intros Hin. vm_compute in Hin.
    repeat (apply elem_of_cons in Hin as [Hin|Hin]; [discriminate|]).
    by apply elem_of_nil in Hin. }
  assert (forall c, last (str "report") = Some c -> isdecimal c = false)
    as H2 by (intros c [= <-]; reflexivity).
  assert (str "007" <> []) as H3 by discriminate.
  assert (Forall (fun c => isdecimal c = true) (str "007")) as H4
    by (repeat constructor).
  assert (forall c, last (str "notes") = Some c ->
            isdecimal c = false /\ c <> LF) as H5
    by (intros c [= <-]; split; [reflexivity|discriminate]).
  do 4 (split; [assumption|]).
  split; [apply (proj1 numbering_start (str "report") (str "007") H1 H2 H3 H4)|].
  split; [exact H5|]. apply (proj2 numbering_start (str "notes") H5).
Defined.

(** * A record with a resource and a message *)

Lemma search_here r s m : match_at r s = Some m -> search r s = Some m.
Proof. intros H. destruct s; simpl; by rewrite H. Qed.

Lemma search_cons_fail r a s :
  match_at r (a :: s) = None -> search r (a :: s) = search r s.
Proof. intros H. simpl. by rewrite H. Qed.

(** A pattern that opens with a literal quote matches at a quote only. *)
Lemma search_skip l r t s :
  QUOTE ∉ t -> search (Lit (QUOTE :: l) &> r) (t ++ s)
               = search (Lit (QUOTE :: l) &> r) s.
Proof.
  induction t as [|a t IH]; [done|].
  rewrite not_elem_of_cons. intros [Ha Ht].
  change ((a :: t) ++ s) with (a :: t ++ s).
  rewrite search_cons_fail; [by apply IH|].
  unfold match_at. cbn [mtch strip_prefix].
  by destruct (N.eqb_spec QUOTE a).
Qed.

Lemma split_at_first (c : N) u1 r1 u2 r2 :
  c ∉ u1 -> c ∉ u2 -> u1 ++ c :: r1 = u2 ++ c :: r2 -> u1 = u2 /\ r1 = r2.
Proof.
  revert u2. induction u1 as [|a u1 IH]; intros [|b u2];
    rewrite ?not_elem_of_cons; simpl.
  - by intros _ _ [= ->].
  - intros _ [Hb _] [= <- _]. done.
  - intros [Ha _] _ [= -> _]. done.
  - intros [_ H1] [_ H2] [= -> Heq]. destruct (IH _ H1 H2 Heq) as [-> ->].
    done.
Qed.

(** At a quote that is not followed by the key and its closing quote, a
    field pattern does not match. *)
Lemma field_key_mismatch key tail u rest :
  QUOTE ∉ u -> QUOTE ∉ str key -> u <> str key ->
  match_at (Lit (quoted key) &> tail) (QUOTE :: u ++ QUOTE :: rest) = None.
Proof.
  intros Hu Hkey Hne. unfold match_at. cbn [mtch].
  destruct (strip_prefix _ _) as [s'|] eqn:Hp; [|done].
  apply strip_prefix_Some in Hp. unfold quoted in Hp.
  cbn [app] in Hp. injection Hp as Hp. rewrite <- app_assoc in Hp.
  by destruct (split_at_first QUOTE _ _ _ _ Hu Hkey Hp).
Qed.

(** At a quoted word that is not followed by a colon, a field pattern
    does not match. *)
Lemma field_colon_missing key tail u c rest :
  QUOTE ∉ u -> QUOTE ∉ str key -> isspace c = false -> c <> 58 ->
  match_at (Lit (quoted key) &> Rep true 0 isspace &> Lit (str ":") &> tail)
    (QUOTE :: u ++ QUOTE :: c :: rest) = None.
Proof.
  intros Hu Hkey Hc Hcolon. unfold match_at. cbn [mtch].
  destruct (strip_prefix _ _) as [s'|] eqn:Hp; [|done].
  apply strip_prefix_Some in Hp. unfold quoted in Hp.
  cbn [app] in Hp. injection Hp as Hp. rewrite <- app_assoc in Hp.
  destruct (split_at_first QUOTE _ _ _ _ Hu Hkey Hp) as [_ <-].
  cbn [rep_least rep_greedy]. rewrite Hc.
  change (str ":") with [58]. cbn [strip_prefix].
  by destruct (N.eqb_spec 58 c).
Qed.

Lemma rep_class_exact {A : Type} cls lo v s (k : text -> option A) :
  Forall (fun c => cls c = true) v -> (lo <= length v)%nat ->
  (forall c s', s = c :: s' -> cls c = false) -> is_Some (k s) ->
  rep_least cls lo (v ++ s) (fun s1 => rep_greedy cls s1 k) = k s.
Proof.
  intros Hv. revert lo. induction Hv as [|c v Hc Hv IH]; intros lo Hlo Hs Hk.
  - destruct lo; [|simpl in Hlo; lia]. cbn [rep_least app].
    destruct s as [|c s]; [done|]. simpl. by rewrite (Hs c s).
  - destruct lo as [|lo].
    + cbn [rep_least]. change ((c :: v) ++ s) with (c :: v ++ s).
      cbn [rep_greedy]. rewrite Hc.
      specialize (IH 0%nat ltac:(lia) Hs Hk). cbn [rep_least] in IH.
      rewrite IH. by destruct Hk as [? ->].
    + change ((c :: v) ++ s) with (c :: v ++ s). cbn [rep_least].
      rewrite Hc. apply IH; [simpl in Hlo; lia|done..].
Qed.

(** Steps of the matcher on a text that is written like the pattern. *)
Lemma mtch_lit {A : Type} t r s g (k : text -> option text -> option A) :
  mtch (Lit t &> r) (t ++ s) g k = mtch r s g k.
Proof. cbn [mtch]. by rewrite strip_prefix_app. Qed.

Lemma mtch_lit_end {A : Type} t s g (k : text -> option text -> option A) :
  mtch (Lit t) (t ++ s) g k = k s g.
Proof. cbn [mtch]. by rewrite strip_prefix_app. Qed.

Lemma mtch_blanks_stop {A : Type} r c s g
    (k : text -> option text -> option A) :
  isspace c = false ->
  mtch (Rep true 0 isspace &> r) (c :: s) g k = mtch r (c :: s) g k.
Proof. intros Hc. cbn [mtch rep_least rep_greedy]. by rewrite Hc. Qed.

Lemma mtch_group_run {A : Type} lo cls r v s g
    (k : text -> option text -> option A) :
  Forall (fun c => cls c = true) v -> (lo <= length v)%nat ->
  (forall c s', s = c :: s' -> cls c = false) ->
  is_Some (mtch r s (Some v) k) ->
  mtch (Grp (Rep true lo cls) &> r) (v ++ s) g k = mtch r s (Some v) k.
Proof.
  intros Hv Hlo Hs Hk. cbn [mtch].
  rewrite rep_class_exact; [by rewrite take_all_but|done..|].
  by rewrite take_all_but.
Qed.

(** A quoted field written without blanks is matched with its value. *)
Lemma quoted_field_match key lo v rest :
  QUOTE ∉ v -> (lo <= length v)%nat ->
  match_at
    (Lit (quoted key) &> Rep true 0 isspace &> Lit (str ":")
     &> Rep true 0 isspace &> Lit [QUOTE]
     &> Grp (Rep true lo (none_of [QUOTE])) &> Lit [QUOTE])
    (quoted key ++ str ":" ++ [QUOTE] ++ v ++ QUOTE :: rest)
  = Some (MatchObj (quoted key ++ str ":" ++ [QUOTE] ++ v ++ [QUOTE])
            (Some v)).
Proof.
  intros Hv Hlo. unfold match_at.
  rewrite mtch_lit. change (str ":") with [58].
  change ([58] ++ [QUOTE] ++ v ++ QUOTE :: rest)
    with (58 :: [QUOTE] ++ v ++ QUOTE :: rest).
  rewrite mtch_blanks_stop by reflexivity.
  rewrite (mtch_lit [58] _ ([QUOTE] ++ v ++ QUOTE :: rest)).
  change ([QUOTE] ++ v ++ QUOTE :: rest) with (QUOTE :: v ++ QUOTE :: rest).
  rewrite mtch_blanks_stop by reflexivity.
  rewrite (mtch_lit [QUOTE] _ (v ++ QUOTE :: rest)).
  rewrite mtch_group_run;
    [|by apply not_elem_none_of|done|by intros ? ? [= <- _]|].
  - rewrite (mtch_lit_end [QUOTE] rest). f_equal. f_equal.
    replace (quoted key ++ 58 :: QUOTE :: v ++ QUOTE :: rest)
      with ((quoted key ++ [58] ++ [QUOTE] ++ v ++ [QUOTE]) ++ rest)
      by (repeat (rewrite <- app_assoc; cbn [app]); reflexivity).
    apply take_all_but.
  - by rewrite (mtch_lit_end [QUOTE] rest).
Qed.

Lemma search_skip_quoted key r t s :
  QUOTE ∉ t ->
  search (Lit (quoted key) &> r) (t ++ s) = search (Lit (quoted key) &> r) s.
Proof. apply search_skip. Qed.

Lemma field_no_closing_quote key tail u :
  QUOTE ∉ u -> match_at (Lit (quoted key) &> tail) (QUOTE :: u) = None.
Proof.
  intros Hu. unfold match_at. cbn [mtch].
  destruct (strip_prefix _ _) as [s'|] eqn:Hp; [|done].
  apply strip_prefix_Some in Hp. unfold quoted in Hp.
  cbn [app] in Hp. injection Hp as ->. exfalso. apply Hu.
  rewrite <- app_assoc. apply elem_of_app. right. by left.
Qed.

Lemma search_nil_quoted key r : search (Lit (quoted key) &> r) [] = None.
Proof. reflexivity. Qed.

(** The record, one quoted word after the other. *)
Lemma minimal_record_words resource message :
  minimal_record resource message
  = str "{" ++ QUOTE :: str "resource" ++ QUOTE :: [58] ++ QUOTE :: resource
    ++ QUOTE :: [44] ++ QUOTE :: str "message" ++ QUOTE :: [58]
    ++ QUOTE :: message ++ QUOTE :: [125].
Proof. reflexivity. Qed.

Lemma not_elem_of_literal (c : N) (l : list N) :
  forallb (fun x => negb (c =? x)) l = true -> c ∉ l.
Proof.
  intros H Hin. rewrite forallb_forall in H.
  apply list_elem_of_In, H in Hin. by rewrite N.eqb_refl in Hin.
Qed.

(** A field whose key is neither resource nor message is not found in
    the record. *)
Lemma field_absent key tail resource message :
  QUOTE ∉ str key ->
  str key <> str "resource" -> str key <> str "message" ->
  str key <> [58] -> str key <> [44] ->
  QUOTE ∉ resource -> QUOTE ∉ message ->
  search (Lit (quoted key) &> Rep true 0 isspace &> Lit (str ":") &> tail)
    (minimal_record resource message) = None.
Proof.
  intros Hkey Hres Hmsg Hcolon Hcomma HR HM.
  rewrite minimal_record_words.
  rewrite search_skip_quoted by (by apply not_elem_of_literal).
  rewrite search_cons_fail
    by (apply field_key_mismatch;
        [by apply not_elem_of_literal|done|congruence]).
  rewrite search_skip_quoted by (by apply not_elem_of_literal).
  rewrite search_cons_fail
    by (apply field_key_mismatch;
        [by apply not_elem_of_literal|done|congruence]).
  rewrite search_skip_quoted by (by apply not_elem_of_literal).
  rewrite search_cons_fail by (by apply field_colon_missing).
  rewrite search_skip_quoted by done.
  rewrite search_cons_fail
    by (apply field_key_mismatch;
        [by apply not_elem_of_literal|done|congruence]).
  rewrite search_skip_quoted by (by apply not_elem_of_literal).
  rewrite search_cons_fail
    by (apply field_key_mismatch;
        [by apply not_elem_of_literal|done|congruence]).
  rewrite search_skip_quoted by (by apply not_elem_of_literal).
  rewrite search_cons_fail
    by (apply field_key_mismatch;
        [by apply not_elem_of_literal|done|congruence]).
  rewrite search_skip_quoted by (by apply not_elem_of_literal).
  rewrite search_cons_fail by (by apply field_colon_missing).
  rewrite search_skip_quoted by done.
  rewrite search_cons_fail
    by (apply field_no_closing_quote; by apply not_elem_of_literal).
  change [125] with ([125] ++ []).
  by rewrite search_skip_quoted by (by apply not_elem_of_literal).
Qed.

Lemma minimal_record_resource resource message :
  resource <> [] -> QUOTE ∉ resource ->
  exists rm,
    search resource_pattern (minimal_record resource message) = Some rm
    /\ group1 rm = Some resource.
Proof.
  intros Hne HR.
  exists (MatchObj (quoted "resource" ++ str ":" ++ [QUOTE] ++ resource
                    ++ [QUOTE]) (Some resource)).
  split; [|reflexivity]. unfold resource_pattern, minimal_record.
  rewrite search_skip_quoted by (by apply not_elem_of_literal).
  apply search_here.
  apply (quoted_field_match "resource" 1 resource); [done|].
  destruct resource; [done|simpl; lia].
Qed.

Lemma minimal_record_message resource message :
  QUOTE ∉ resource -> QUOTE ∉ message ->
  exists mm,
    search message_pattern (minimal_record resource message) = Some mm
    /\ group1 mm = Some message.
Proof.
  intros HR HM.
  exists (MatchObj (quoted "message" ++ str ":" ++ [QUOTE] ++ message
                    ++ [QUOTE]) (Some message)).
  split; [|reflexivity]. unfold message_pattern.
  rewrite minimal_record_words.
  rewrite search_skip_quoted by (by apply not_elem_of_literal).
  rewrite search_cons_fail
    by (apply field_key_mismatch;
        [by apply not_elem_of_literal..|discriminate]).
  rewrite search_skip_quoted by (by apply not_elem_of_literal).
  rewrite search_cons_fail
    by (apply field_key_mismatch;
        [by apply not_elem_of_literal..|discriminate]).
  rewrite search_skip_quoted by (by apply not_elem_of_literal).
  rewrite search_cons_fail
    by (apply field_colon_missing;
        [done|by apply not_elem_of_literal|done..]).
  rewrite search_skip_quoted by done.
  rewrite search_cons_fail
    by (apply field_key_mismatch;
        [by apply not_elem_of_literal..|discriminate]).
  rewrite search_skip_quoted by (by apply not_elem_of_literal).
  apply search_here.
  apply (quoted_field_match "message" 0 message [125]); [done|lia].
Qed.

Lemma finditer_from_past r s skip :
  match_at r [] = None -> (length s <= skip)%nat ->
  finditer_from r skip s = [].
Proof.
  intros Hnil. revert skip.
  induction s as [|c s IH]; intros [|n] Hn; simpl in *;
    try done; try lia.
  - by rewrite Hnil.
  - apply IH. lia.
Qed.

(** The record is found as one block. *)
Lemma minimal_record_block resource message :
  RBRACE ∉ resource -> RBRACE ∉ message ->
  finditer pattern (minimal_record resource message)
  = [minimal_record resource message].
Proof.
  intros HR HM.
  pose (inner := resource ++ QUOTE :: [44] ++ QUOTE :: str "message"
                 ++ QUOTE :: [58] ++ QUOTE :: message ++ [QUOTE]).
  assert (minimal_record resource message
          = (str "{" ++ (quoted "resource" ++ str ":") ++ QUOTE :: inner)
            ++ [RBRACE]) as Hwords.
  { rewrite minimal_record_words. unfold inner.
    repeat (rewrite <- app_assoc; cbn [app]). reflexivity. }
  assert (RBRACE ∉ str "{" ++ (quoted "resource" ++ str ":") ++ QUOTE :: inner)
    as Hinner.
  { unfold inner.
    repeat first
      [ assumption
      | apply not_elem_of_app; split
      | apply not_elem_of_cons; split
      | apply not_elem_of_nil
      | discriminate
      | by apply not_elem_of_literal ]. }
  assert (is_Some (match_at pattern (minimal_record resource message)))
    as [m Hm].
  { rewrite Hwords. unfold match_at, pattern.
    set (k := fun (s' : text) (g : option text) => Some _).
    rewrite <- !app_assoc. rewrite mtch_lit.
    change (quoted "resource" ++ str ":" ++ (QUOTE :: inner) ++ [RBRACE])
      with (QUOTE :: (str "resource" ++ QUOTE :: str ":"
                      ++ (QUOTE :: inner) ++ [RBRACE])).
    rewrite mtch_blanks_stop by reflexivity.
    change (QUOTE :: (str "resource" ++ QUOTE :: str ":"
                      ++ (QUOTE :: inner) ++ [RBRACE]))
      with ((quoted "resource" ++ str ":") ++ (QUOTE :: inner) ++ [RBRACE]).
    rewrite mtch_lit. cbn [mtch rep_least any_char app].
    apply rep_lazy_complete; [by apply Forall_true|]. by eexists. }
  destruct (match_at_pattern_shape _ _ Hm) as (blanks & c & body & Hg & _).
  destruct (match_at_sound _ _ _ Hm) as (rest & Hrest & _).
  assert (group0 m = minimal_record resource message) as Hwhole.
  { destruct rest as [|z rest _] using rev_ind;
      [by rewrite app_nil_r in Hrest|].
    exfalso. apply Hinner. rewrite Hwords in Hrest.
    rewrite (app_assoc (group0 m)) in Hrest.
    apply app_inj_tail in Hrest as [-> _]. rewrite Hg.
    rewrite !elem_of_app, elem_of_cons, !elem_of_app.
    left. right. right. right. right. right. by left. }
  unfold finditer.
  assert (exists tl, minimal_record resource message = 123 :: tl) as (tl & Htl)
    by (by eexists).
  rewrite Htl in *. cbn [finditer_from]. rewrite Hm, Hwhole.
  f_equal. apply finditer_from_past; [reflexivity|simpl; lia].
Qed.

Lemma minimal_record_other_fields resource message :
  QUOTE ∉ resource -> QUOTE ∉ message ->
  search severity_pattern (minimal_record resource message) = None
  /\ search code_pattern (minimal_record resource message) = None
  /\ search line_pattern (minimal_record resource message) = None.
Proof.
  intros HR HM. unfold severity_pattern, code_pattern, line_pattern.
  repeat split;
    (apply field_absent;
     [by apply not_elem_of_literal|discriminate..|done|done]).
Qed.

(** X15. A record that holds a resource and a message and nothing else,
    written without blanks, with a resource that is not empty and with no
    double quote and no closing brace in either value, yields exactly one
    line: the category INFO, the shortened path, a question mark for the
    line, an empty code and the cleaned message; INFO and TOTAL are 1. *)
Theorem minimal_record_line (json_loads : text -> bool)
    (file_path resource message : text) (d m : Z) :
  resource <> [] -> QUOTE ∉ resource -> RBRACE ∉ resource ->
  QUOTE ∉ message -> RBRACE ∉ message -> (m <= 0)%Z ->
  exists p,
    file_path_of d resource = Return p
    /\ snd (process_file json_loads file_path
              (minimal_record resource message) d m)
       = Return ([str "INFO [" ++ p ++ str ":?] : " ++ cleanup message],
                 <["TOTAL" := 1%Z]> (<["INFO" := 1%Z]> counts0)).
Proof.
  intros Hne HRq HRb HMq HMb Hm.
  destruct (minimal_record_resource resource message Hne HRq)
    as (rm & Hr & Hgr).
  destruct (minimal_record_message resource message HRq HMq)
    as (mm & Hmm & Hgm).
  destruct (minimal_record_other_fields resource message HRq HMq)
    as (Hsev & Hcode & Hline).
  destruct (loop_body_found d m _ rm mm Hr Hmm)
    as (resource' & message' & p & z & Hgr' & Hgm' & Hp & Hz & _ & Hbody).
  assert (resource' = resource) as -> by congruence.
  assert (message' = message) as -> by congruence.
  rewrite Hsev in Hz. injection Hz as <-.
  exists p. split; [done|]. unfold process_file.
  rewrite (minimal_record_block resource message HRb HMb).
  cbn [snd for_each]. rewrite Hbody, Hcode, Hline.
  destruct (Z.ltb_spec 0 m); [lia|].
  change (msg_type_of 0) with "INFO".
  assert (incr "INFO" counts0 = Return (<["INFO" := 1%Z]> counts0)) as ->
    by (vm_compute; reflexivity).
  cbn [mbind py_bind].
  assert (incr "TOTAL" (<["INFO" := 1%Z]> counts0)
          = Return (<["TOTAL" := 1%Z]> (<["INFO" := 1%Z]> counts0))) as ->
    by (vm_compute; reflexivity).
  reflexivity.
Qed.

Lemma minimal_record_line_witness :
  str "/src/app.ts" <> []
  /\ (QUOTE ∉ str "/src/app.ts") /\ (RBRACE ∉ str "/src/app.ts")
  /\ (QUOTE ∉ str "unused import") /\ (RBRACE ∉ str "unused import")
  /\ (0 <= 0)%Z
  /\ exists p,
       file_path_of 1 (str "/src/app.ts") = Return p
       /\ snd (process_file (fun _ => true) []
                 (minimal_record (str "/src/app.ts") (str "unused import"))
                 1 0)
          = Return ([str "INFO [" ++ p ++ str ":?] : "
                     ++ cleanup (str "unused import")],
                    <["TOTAL" := 1%Z]> (<["INFO" := 1%Z]> counts0)).
Proof.
  assert (QUOTE ∉ str "/src/app.ts") as H1
    by (by apply not_elem_of_literal).
  assert (RBRACE ∉ str "/src/app.ts") as H2
    by (by apply not_elem_of_literal).
  assert (QUOTE ∉ str "unused import") as H3
    by (by apply not_elem_of_literal).
  assert (RBRACE ∉ str "unused import") as H4
    by (by apply not_elem_of_literal).
  split; [discriminate|]. do 4 (split; [assumption|]). split; [done|].
  apply (minimal_record_line (fun _ => true) [] (str "/src/app.ts")
           (str "unused import") 1 0);
    [discriminate|assumption..|done].
Defined.
